(** * json-schema-gen: the struct-tag to JSON Schema generator

    A shallow embedding of [json-schema-gen/generator.go] and of the parts of
    the Go standard library it calls ([strings], [strconv], [go/ast],
    [text/template], [fmt], [os]), followed by the properties of the
    generator that are proved about it.

    Go strings are byte sequences: they are modelled by [string], whose
    characters are the 256 values of [ascii].  The [map[string]string] built by
    [parseFieldTags] is a [gmap string string]; looking up a missing key in a
    Go map gives the zero value, here the empty string. *)

From Stdlib Require Import ZArith String Ascii List Lia DecimalString DecimalPos.
From stdpp Require Import base option list strings gmap.

Open Scope string_scope.
Open Scope list_scope.

(* ===================================================================== *)
(** ** Package [strings] *)
(* ===================================================================== *)

Module GoStrings.

(** [s[n:]] and [s[:n]] for [n <= len(s)]. *)
Fixpoint sliceFrom (n : nat) (s : string) : string :=
  match n, s with
  | S n', String _ s' => sliceFrom n' s'
  | _, _ => s
  end.

Fixpoint sliceTo (n : nat) (s : string) : string :=
  match n, s with
  | S n', String c s' => String c (sliceTo n' s')
  | _, _ => ""
  end.

(** [strings.HasPrefix(s, prefix)]. *)
Fixpoint HasPrefix (s prefix : string) : bool :=
  match prefix, s with
  | "", _ => true
  | String p prefix', String c s' => Ascii.eqb c p && HasPrefix s' prefix'
  | String _ _, "" => false
  end.

(** [strings.Index(s, substr)]: the byte offset of the first occurrence of
    [substr] in [s]; Go's [-1] is [None]. *)
Fixpoint Index (s substr : string) : option nat :=
  if HasPrefix s substr then Some 0
  else match s with
       | "" => None
       | String _ s' => S <$> Index s' substr
       end.

(** [strings.Contains(s, substr)] is [Index(s, substr) >= 0]. *)
Definition Contains (s substr : string) : bool :=
  match Index s substr with Some _ => true | None => false end.

(** [strings.Count(s, substr)] for a non-empty [substr]: the number of
    non-overlapping occurrences.  Every round of Go's loop consumes at least
    one byte of [s], so the loop is bounded by [fuel]. *)
Fixpoint countLoop (fuel : nat) (s substr : string) : nat :=
  match fuel with
  | O => 0
  | S fuel' =>
      match Index s substr with
      | None => 0
      | Some i => S (countLoop fuel' (sliceFrom (i + String.length substr) s) substr)
      end
  end.

Definition Count (s substr : string) : nat :=
  countLoop (String.length s) s substr.

(** The loop of [genSplit]: at most [n] cuts, the rest of [s] last. *)
Fixpoint splitLoop (n : nat) (s sep : string) : list string :=
  match n with
  | O => [s]
  | S n' =>
      match Index s sep with
      | None => [s]
      | Some m => sliceTo m s :: splitLoop n' (sliceFrom (m + String.length sep) s) sep
      end
  end.

(** [explode(s, n)] with [n < 0], on strings of single-byte characters. *)
Fixpoint explode (s : string) : list string :=
  match s with
  | "" => []
  | String c s' => String c "" :: explode s'
  end.

(** [genSplit(s, sep, 0, n)]: [n < 0] is [None] (no limit), [n >= 0] is
    [Some n]. *)
Definition genSplit (s sep : string) (n : option nat) : list string :=
  match n with
  | Some O => []
  | _ =>
      if String.eqb sep "" then
        match n with
        | None => explode s
        | Some k => if (String.length s <=? k)%nat then explode s
                    else explode (sliceTo (k - 1) s) ++ [sliceFrom (k - 1) s]
        end
      else
        let n1 := match n with None => Count s sep + 1 | Some k => k end in
        let n2 := if (String.length s + 1 <? n1)%nat then String.length s + 1 else n1 in
        splitLoop (n2 - 1) s sep
  end.

(** [strings.Split(s, sep)] and [strings.SplitN(s, sep, n)] for [n >= 0]. *)
Definition Split (s sep : string) : list string := genSplit s sep None.
Definition SplitN (s sep : string) (n : nat) : list string := genSplit s sep (Some n).

(** Membership of a byte in a cutset. *)
Fixpoint inCutset (c : ascii) (cutset : string) : bool :=
  match cutset with
  | "" => false
  | String d cutset' => Ascii.eqb c d || inCutset c cutset'
  end.

Fixpoint TrimLeft (s cutset : string) : string :=
  match s with
  | "" => ""
  | String c s' => if inCutset c cutset then TrimLeft s' cutset else s
  end.

Fixpoint TrimRight (s cutset : string) : string :=
  match s with
  | "" => ""
  | String c s' =>
      match TrimRight s' cutset with
      | "" => if inCutset c cutset then "" else String c ""
      | r => String c r
      end
  end.

(** [strings.Trim(s, cutset)] for a cutset of single-byte characters: the
    right end is trimmed first, then the left end. *)
Definition Trim (s cutset : string) : string :=
  TrimLeft (TrimRight s cutset) cutset.

(** The fast path of [strings.ToLower]: the string is pure ASCII. *)
Definition isASCII (s : string) : bool :=
  forallb (fun c => Nat.ltb (nat_of_ascii c) 128) (list_ascii_of_string s).

Definition lowerByte (c : ascii) : ascii :=
  let n := nat_of_ascii c in
  if ((65 <=? n) && (n <=? 90))%nat then ascii_of_nat (n + 32) else c.

Fixpoint mapBytes (f : ascii -> ascii) (s : string) : string :=
  match s with
  | "" => ""
  | String c s' => String (f c) (mapBytes f s')
  end.

(** [strings.ToLower(s)].  On a string with a byte outside ASCII Go maps
    [unicode.ToLower] over the runes; that mapping comes from the Unicode
    tables and is the parameter [mapUnicodeLower]. *)
Definition ToLower (mapUnicodeLower : string -> string) (s : string) : string :=
  if isASCII s then mapBytes lowerByte s else mapUnicodeLower s.

End GoStrings.

(* ===================================================================== *)
(** ** Package [strconv] and the decimal printing of [fmt] *)
(* ===================================================================== *)

Module GoStrconv.

(** The size of Go's [int] on the 64-bit platforms. *)
Definition intSize : Z := 64.

(** [ch -= '0'; if ch > 9 { error }] on a byte. *)
Definition digit (c : ascii) : option Z :=
  let n := nat_of_ascii c in
  if ((48 <=? n) && (n <=? 57))%nat then Some (Z.of_nat (n - 48)) else None.

(** The digit loop: [n = n*10 + int(ch)], a syntax error on any other
    byte. *)
Fixpoint digitsFrom (acc : Z) (s : string) : option Z :=
  match s with
  | "" => Some acc
  | String c s' =>
      match digit c with
      | Some d => digitsFrom (acc * 10 + d)%Z s'
      | None => None
      end
  end.

Definition isSign (c : ascii) : bool :=
  Ascii.eqb c "-" || Ascii.eqb c "+".

(** [strconv.ParseInt(s, 10, 0)].  [ParseUint] saturates at the largest
    [uint64] on overflow and reports a range error, which [ParseInt] turns
    into its own range error: the unbounded accumulator compared with the
    cutoff gives the same outcome. *)
Definition ParseInt10 (s : string) : option Z :=
  match s with
  | "" => None
  | String c0 rest =>
      let neg := Ascii.eqb c0 "-" in
      let body := if isSign c0 then rest else s in
      match body with
      | "" => None
      | _ =>
          match digitsFrom 0 body with
          | None => None
          | Some un =>
              let cutoff := (2 ^ (intSize - 1))%Z in
              if negb neg && (cutoff <=? un)%Z then None
              else if neg && (cutoff <? un)%Z then None
              else Some (if neg then (- un)%Z else un)
          end
      end
  end.

(** [strconv.Atoi(s)]; an error is [None]. *)
Definition Atoi (s : string) : option Z :=
  let sLen := String.length s in
  if ((0 <? sLen) && (sLen <? 19))%nat then
    (* fast path for small integers that fit the int type *)
    match s with
    | "" => None
    | String c0 rest =>
        let body := if isSign c0 then rest else s in
        match body with
        | "" => None
        | _ =>
            match digitsFrom 0 body with
            | None => None
            | Some n => Some (if Ascii.eqb c0 "-" then (- n)%Z else n)
            end
        end
    end
  else ParseInt10 s.

(** What [fmt] prints for an [int]: its decimal digits, [-] first when
    negative. *)
Definition formatInt (z : Z) : string :=
  NilZero.string_of_int (Z.to_int z).

End GoStrconv.

(* ===================================================================== *)
(** ** Package [go/ast] *)
(* ===================================================================== *)

Module GoAst.

#[local] Unset Elimination Schemes.

(** The syntax tree of a parsed file.  The generator tells apart three
    kinds of node only: type declarations ([*ast.TypeSpec]), structure
    types ([*ast.StructType]) and identifiers ([*ast.Ident]).  Every other
    kind of node ([*ast.File], [*ast.GenDecl], [*ast.FuncDecl],
    [*ast.BlockStmt], [*ast.StarExpr], [*ast.ArrayType], ...) is an [Other]
    node that carries the name of its kind and its children in the order
    in which [ast.Walk] visits them.  Comment groups hold no declaration
    and are left out of the tree. *)
Inductive Node : Type :=
| Ident (Name : string)
| TypeSpec (Name : string) (TypeParams : list Node) (Type_ : Node)
| StructType (Fields : list Field)
| Other (kind : string) (children : list Node)
(** [ast.Field]: one field declaration of a structure.  [Tag] is [None]
    for a nil [*ast.BasicLit], and otherwise the literal as written in the
    source, its quotes included. *)
with Field : Type :=
| mkField (Names : list string) (Type_ : Node) (Tag : option string).

#[local] Set Elimination Schemes.

(** Induction on a tree and on the fields of its structure types. *)
Section Node_induction.
Variables (P : Node -> Prop) (Q : Field -> Prop).
Hypothesis HIdent : forall name, P (Ident name).
Hypothesis HTypeSpec : forall name tparams type,
  Forall P tparams -> P type -> P (TypeSpec name tparams type).
Hypothesis HStructType : forall fields, Forall Q fields -> P (StructType fields).
Hypothesis HOther : forall kind children, Forall P children -> P (Other kind children).
Hypothesis HField : forall names type tag, P type -> Q (mkField names type tag).

Fixpoint Node_induction (n : Node) : P n :=
  match n with
  | Ident name => HIdent name
  | TypeSpec name tparams type =>
      HTypeSpec name tparams type
        ((fix all (l : list Node) : Forall P l :=
            match l with
            | [] => @List.Forall_nil _ P
            | x :: l' => @List.Forall_cons _ P x l' (Node_induction x) (all l')
            end) tparams)
        (Node_induction type)
  | StructType fields =>
      HStructType fields
        ((fix all (l : list Field) : Forall Q l :=
            match l with
            | [] => @List.Forall_nil _ Q
            | x :: l' => @List.Forall_cons _ Q x l' (Field_induction x) (all l')
            end) fields)
  | Other kind children =>
      HOther kind children
        ((fix all (l : list Node) : Forall P l :=
            match l with
            | [] => @List.Forall_nil _ P
            | x :: l' => @List.Forall_cons _ P x l' (Node_induction x) (all l')
            end) children)
  end
with Field_induction (f : Field) : Q f :=
  match f with
  | mkField names type tag => HField names type tag (Node_induction type)
  end.
End Node_induction.

Definition FieldNames (f : Field) : list string := let (names, _, _) := f in names.
Definition FieldType (f : Field) : Node := let (_, ty, _) := f in ty.
Definition FieldTag (f : Field) : option string := let (_, _, tag) := f in tag.

(** Some of the other kinds, for writing trees down. *)
Definition File (Name : string) (Decls : list Node) : Node := Other "File" (Ident Name :: Decls).
Definition GenDecl (Specs : list Node) : Node := Other "GenDecl" Specs.
Definition FuncDecl (Name : string) (Body : list Node) : Node :=
  Other "FuncDecl" [Ident Name; Other "FuncType" []; Other "BlockStmt" Body].
Definition DeclStmt (Decl : Node) : Node := Other "DeclStmt" [Decl].
Definition BasicLit (_ : string) : Node := Other "BasicLit" [].
Definition StarExpr (X : Node) : Node := Other "StarExpr" [X].
Definition ArrayType (Elt : Node) : Node := Other "ArrayType" [Elt].
Definition MapType (Key Value : Node) : Node := Other "MapType" [Key; Value].
Definition SelectorExpr (X : Node) (Sel : string) : Node := Other "SelectorExpr" [X; Ident Sel].
Definition InterfaceType : Node := Other "InterfaceType" [Other "FieldList" []].

(** A value of the interface type [ast.Node] as a visitor receives it: a
    node of the tree, a field, a field list, or nil. *)
Inductive AnyNode : Type :=
| ANode (n : Node)
| AField (f : Field)
| AFieldList (l : list Field)
| ANil.

Section Walk.
Context {S : Type}.

(** The callback given to [ast.Inspect], with the variables it captures
    as an explicit state of type [S].  [None] is a run-time panic inside
    the callback. *)
Variable f : AnyNode -> S -> option (bool * S).

(** A node without children: [f(node)], then [f(nil)] when that
    returned true. *)
Definition walkLeaf (a : AnyNode) (s : S) : option S :=
  '(descend, s1) ← f a s;
  if descend : bool then snd <$> f ANil s1 else Some s1.

Fixpoint walkIdents (names : list string) (s : S) : option S :=
  match names with
  | [] => Some s
  | x :: names' => s1 ← walkLeaf (ANode (Ident x)) s; walkIdents names' s1
  end.

(** [ast.Walk(inspector(f), n)]: the callback on [n]; when it returns
    true, the children of [n] in order, then the callback on nil.  When
    it returns false the children are skipped, and the walk goes on with
    whatever follows [n]. *)
Fixpoint Walk (n : Node) (s : S) {struct n} : option S :=
  '(descend, s1) ← f (ANode n) s;
  if descend : bool then
    s2 ← match n with
         | Ident _ => Some s1
         | TypeSpec name tparams ty =>
             s' ← walkLeaf (ANode (Ident name)) s1;
             s'' ← (fix walkList (l : list Node) (s : S) : option S :=
                      match l with
                      | [] => Some s
                      | x :: l' => s1 ← Walk x s; walkList l' s1
                      end) tparams s';
             Walk ty s''
         | StructType fields =>
             '(descend', s') ← f (AFieldList fields) s1;
             if descend' : bool then
               s'' ← (fix walkFields (l : list Field) (s : S) : option S :=
                        match l with
                        | [] => Some s
                        | x :: l' => s1 ← WalkField x s; walkFields l' s1
                        end) fields s';
               snd <$> f ANil s''
             else Some s'
         | Other _ children =>
             (fix walkList (l : list Node) (s : S) : option S :=
                match l with
                | [] => Some s
                | x :: l' => s1 ← Walk x s; walkList l' s1
                end) children s1
         end;
    snd <$> f ANil s2
  else Some s1
with WalkField (fld : Field) (s : S) {struct fld} : option S :=
  '(descend, s1) ← f (AField fld) s;
  if descend : bool then
    s2 ← match fld with
         | mkField names ty tag =>
             s' ← walkIdents names s1;
             s'' ← Walk ty s';
             match tag with
             | Some v => walkLeaf (ANode (BasicLit v)) s''
             | None => Some s''
             end
         end;
    snd <$> f ANil s2
  else Some s1.

(** [ast.Inspect(node, f)]. *)
Definition Inspect (node : Node) (s : S) : option S := Walk node s.

(** The two loops over children inside [Walk], by name. *)
Fixpoint walkNodes (l : list Node) (s : S) : option S :=
  match l with
  | [] => Some s
  | x :: l' => s1 ← Walk x s; walkNodes l' s1
  end.

Fixpoint walkFields (l : list Field) (s : S) : option S :=
  match l with
  | [] => Some s
  | x :: l' => s1 ← WalkField x s; walkFields l' s1
  end.
End Walk.

End GoAst.

(* ===================================================================== *)
(** ** The process and its surroundings *)
(* ===================================================================== *)

Module GoOs.

(** What a run leaves behind, in order: the texts written to standard
    output and the calls of [os.WriteFile] with the error each returned
    ([None] for nil). *)
Inductive Event : Type :=
| Stdout (text : string)
| WriteFile (name data : string) (perm : Z) (err : option string).

(** The state of the process: the events so far and the contents of the
    files of the working directory. *)
Record OS : Type := mkOS {
  trace : list Event;
  files : gmap string string
}.

(** What the run is given from outside: the outcome of
    [parser.ParseFile] on a path (an error text or the tree of the file),
    the error [os.WriteFile] meets on a path, if any, and the Unicode
    lower-case mapping used by [strings.ToLower]. *)
Record Env : Type := mkEnv {
  ParseFile : string -> string + GoAst.Node;
  writeError : string -> option string;
  mapUnicodeLower : string -> string
}.

(** How a computation ends: it returns a value, the process exits through
    [os.Exit], or it panics. *)
Inductive Outcome (A : Type) : Type :=
| Returned (a : A)
| Exited (code : Z)
| Panicked.
Arguments Returned {A} a.
Arguments Exited {A} code.
Arguments Panicked {A}.

Definition M (A : Type) : Type := OS -> Outcome A * OS.

Definition ret {A} (a : A) : M A := fun os => (Returned a, os).

Definition bind {A B} (m : M A) (k : A -> M B) : M B :=
  fun os =>
    match m os with
    | (Returned a, os') => k a os'
    | (Exited code, os') => (Exited code, os')
    | (Panicked, os') => (Panicked, os')
    end.

#[global] Instance M_ret : MRet M := @ret.
#[global] Instance M_bind : MBind M := fun A B k m => bind m k.

Definition Exit {A} (code : Z) : M A := fun os => (Exited code, os).

(** A pure computation that may panic. *)
Definition orPanic {A} (o : option A) : M A :=
  fun os => match o with Some a => (Returned a, os) | None => (Panicked, os) end.

Definition emit (e : Event) : M unit :=
  fun os => (Returned tt, mkOS (trace os ++ [e]) (files os)).

(** [fmt.Println], [fmt.Printf]: the formatted text goes to standard
    output. *)
Definition fmtPrint (text : string) : M unit := emit (Stdout text).

(** [os.WriteFile(name, data, perm)]: on success the file holds exactly
    [data], whatever it held before; the error, if any, is returned. *)
Definition osWriteFile (env : Env) (name data : string) (perm : Z) : M (option string) :=
  fun os =>
    match writeError env name with
    | Some err => (Returned (Some err), mkOS (trace os ++ [WriteFile name data perm (Some err)]) (files os))
    | None => (Returned None, mkOS (trace os ++ [WriteFile name data perm None]) (<[name := data]> (files os)))
    end.

(** The exit status of a finished process: 0 when [main] returns, the
    argument of [os.Exit], 2 after a panic. *)
Definition exitStatus {A} (o : Outcome A) : Z :=
  match o with
  | Returned _ => 0
  | Exited code => code
  | Panicked => 2
  end.

End GoOs.


(* ===================================================================== *)
(** ** generator.go *)
(* ===================================================================== *)

Module Generator.
Import GoStrings GoStrconv GoAst GoOs.

(** The double quote, and literals written with an apostrophe wherever
    the Go source has a double quote. *)
Definition quote : ascii := "034"%char.
Definition apostrophe : ascii := "039"%char.
Definition lit (s : string) : string :=
  mapBytes (fun c => if Ascii.eqb c apostrophe then quote else c) s.
Definition LF : string := String "010"%char "".

(** [SchemaField] represents a single field in the JSON schema. *)
Record SchemaField : Type := mkSchemaField {
  Name : string;
  Type_ : string;
  Required : bool;
  MinLength : option Z;
  Format : string;
  Description : string
}.

(** [SchemaType] represents the complete schema structure. *)
Record SchemaType : Type := mkSchemaType {
  TypeName : string;
  Fields : list SchemaField
}.

Definition setMinLength (f : SchemaField) (val : Z) : SchemaField :=
  mkSchemaField (Name f) (Type_ f) (Required f) (Some val) (Format f) (Description f).

Definition setFormat (f : SchemaField) (format : string) : SchemaField :=
  mkSchemaField (Name f) (Type_ f) (Required f) (MinLength f) format (Description f).

(** *** [schemaTemplate]

    The texts of the template after the trim markers have removed the
    white space before each [{{-]; the actions in between are the
    functions below. *)
Definition tplHead : string :=
  lit "{" +:+ LF +:+
  lit "    '$schema': 'http://json-schema.org/draft-07/schema#'," +:+ LF +:+
  lit "    'title': '".

Definition tplProperties : string :=
  lit "'," +:+ LF +:+
  lit "    'type': 'object'," +:+ LF +:+
  lit "    'properties': {".

Definition tplFoot : string :=
  LF +:+ "    }" +:+ LF +:+ "}".

(** [{{if $field.Required}}]: a bool is true when it is true. *)
Definition tplRequired (field : SchemaField) : string :=
  if Required field then "," +:+ LF +:+ lit "            'required': true" else "".

(** [{{if $field.MinLength}}]: a pointer is true when it is not nil,
    whatever it points to; printing it prints the integer it points to. *)
Definition tplMinLength (field : SchemaField) : string :=
  match MinLength field with
  | Some val => "," +:+ LF +:+ lit "            'minLength': " +:+ formatInt val
  | None => ""
  end.

(** [{{if $field.Format}}]: a string is true when it is not empty. *)
Definition tplFormat (field : SchemaField) : string :=
  if String.eqb (Format field) "" then ""
  else "," +:+ LF +:+ lit "            'format': '" +:+ Format field +:+ lit "'".

Definition tplDescription (field : SchemaField) : string :=
  if String.eqb (Description field) "" then ""
  else "," +:+ LF +:+ lit "            'description': '" +:+ Description field +:+ lit "'".

(** The body of [{{range $i, $field := .Fields}}] for the field of index
    [i]; [{{if $i}}] is true when [i] is not 0. *)
Definition tplField (i : nat) (field : SchemaField) : string :=
  LF +:+ "        " +:+ (if Nat.eqb i 0 then "" else ",") +:+ LF +:+
  lit "        '" +:+ Name field +:+ lit "': {" +:+ LF +:+
  lit "            'type': '" +:+ Type_ field +:+ lit "'" +:+
  tplRequired field +:+
  tplMinLength field +:+
  tplFormat field +:+
  tplDescription field +:+
  LF +:+ "        }".

Fixpoint tplRange (i : nat) (fields : list SchemaField) : string :=
  match fields with
  | [] => ""
  | field :: fields' => tplField i field +:+ tplRange (S i) fields'
  end.

(** [schemaTemplate.Execute(&output, schema)]: the text written to
    [output].  The values are interpolated as they are, without escaping.
    Every field the template names exists in [SchemaType] and
    [SchemaField], and a [bytes.Buffer] takes every write, so the
    execution returns no error: the result is always [inr]. *)
Definition schemaTemplate_Execute (schema : SchemaType) : string + string :=
  inr (tplHead +:+ TypeName schema +:+ tplProperties +:+
       tplRange 0 (Fields schema) +:+ tplFoot).

(** *** [getFieldType] *)
Definition getFieldType (expr : Node) : string :=
  match expr with
  | Ident name =>
      if String.eqb name "string" then "string"
      else if String.eqb name "int" || String.eqb name "int32" || String.eqb name "int64"
      then "integer"
      else if String.eqb name "float32" || String.eqb name "float64" then "number"
      else if String.eqb name "bool" then "boolean"
      else "string"
  | _ => "string"
  end.

(** [m[key]] on a [map[string]string]: the zero value for a missing
    key. *)
Definition mapGet (m : gmap string string) (key : string) : string :=
  default "" (m !! key).

(** *** [parseFieldTags] *)
Definition parseFieldTags (tag : string) : gmap string string :=
  let tag := Trim tag "`" in
  fold_left
    (fun (tags : gmap string string) (t : string) =>
       match Split t ":" with
       | [key; value] => <[key := Trim value (String quote "")]> tags
       | _ => tags
       end)
    (Split tag " ") ∅.

(** *** [parseStruct]

    One round of the loop over [structType.Fields.List].  An index out of
    the range of a slice is a panic, [None]. *)
Definition parseStructField (schema : SchemaType) (field : Field) : option SchemaType :=
  match FieldTag field with
  | None => Some schema
  | Some tagValue =>
      let tags := parseFieldTags tagValue in
      if String.eqb (mapGet tags "json") "-" then Some schema
      else
        let schemaField :=
          mkSchemaField (mapGet tags "json") (getFieldType (FieldType field))
                        (Contains (mapGet tags "schema") "required") None "" "" in
        schemaField ←
          (if Contains (mapGet tags "schema") "minLength=" then
             rest ← SplitN (mapGet tags "schema") "minLength=" 2 !! 1%nat;
             minLengthStr ← SplitN rest "," 2 !! 0%nat;
             match Atoi minLengthStr with
             | Some val => Some (setMinLength schemaField val)
             | None => Some schemaField
             end
           else Some schemaField);
        schemaField ←
          (if Contains (mapGet tags "schema") "format=" then
             format ← Split (mapGet tags "schema") "format=" !! 1%nat;
             format ← Split format "," !! 0%nat;
             Some (setFormat schemaField format)
           else Some schemaField);
        Some (mkSchemaType (TypeName schema) (Fields schema ++ [schemaField]))
  end.

Definition parseStruct (typeName : string) (structFields : list Field) : option SchemaType :=
  foldl (fun acc field => schema ← acc; parseStructField schema field)
        (Some (mkSchemaType typeName [])) structFields.

(** *** [generateSchemaFile] *)
Definition generateSchemaFile (env : Env) (schema : SchemaType) : M (option string) :=
  let outputFile := ToLower (mapUnicodeLower env) (TypeName schema) +:+ ".schema.json" in
  match schemaTemplate_Execute schema with
  | inl err => mret (Some ("template execution failed: " +:+ err))
  | inr output =>
      fmtPrint ("Schema file generated successfully" +:+ LF +:+ " " +:+
             "FileName: " +:+ " " +:+ outputFile +:+ LF);;
      osWriteFile env outputFile output 420
  end.

(** *** [main]

    The callback given to [ast.Inspect]; the state is the captured
    variable [schema], [None] for nil. *)
Definition inspector (typeName : string) (n : AnyNode) (schema : option SchemaType)
  : option (bool * option SchemaType) :=
  match n with
  | ANode (TypeSpec name _ type) =>
      if negb (String.eqb name typeName) then Some (true, schema)
      else match type with
           | StructType structFields =>
               schema' ← parseStruct name structFields;
               Some (false, Some schema')
           | _ => Some (true, schema)
           end
  | _ => Some (true, schema)
  end.

(** [typeName] is the value of the flag [-type] and [args] is
    [flag.Args()], both as [flag.Parse] leaves them. *)
Definition main (env : Env) (typeName : string) (args : list string) : M unit :=
  (if String.eqb typeName "" then
     fmtPrint ("Please specify type name using -type flag" +:+ LF);; Exit 1
   else mret tt);;
  inputFile ← match args with
              | [] => fmtPrint ("Please specify an input file" +:+ LF);; Exit 1
              | inputFile :: _ => mret inputFile
              end;
  node ← match ParseFile env inputFile with
         | inl err => fmtPrint ("Error parsing file: " +:+ err +:+ LF);; Exit 1
         | inr node => mret node
         end;
  found ← orPanic (Inspect (inspector typeName) node None);
  schema ← match found with
           | None => fmtPrint ("Type " +:+ typeName +:+ " not found in " +:+ inputFile +:+ LF);;
                     Exit 1
           | Some schema => mret schema
           end;
  err ← generateSchemaFile env schema;
  match err with
  | Some err => fmtPrint ("Error generating schema: " +:+ err +:+ LF);; Exit 1
  | None => mret tt
  end.

(** A run of the program from a state without events. *)
Definition run (env : Env) (typeName : string) (args : list string)
           (fs : gmap string string) : Z * OS :=
  let (o, os) := main env typeName args (mkOS [] fs) in (exitStatus o, os).

End Generator.

(* ===================================================================== *)
(** ** Notions used to state the properties *)
(* ===================================================================== *)

Module Notions.
Import GoStrings GoStrconv GoAst GoOs Generator.

(** The text of [s] after the first occurrence of [sep]; empty when [sep]
    does not occur. *)
Fixpoint textAfter (sep s : string) : string :=
  if HasPrefix s sep then sliceFrom (String.length sep) s
  else match s with
       | "" => ""
       | String _ s' => textAfter sep s'
       end.

(** The text of [s] up to the first occurrence of [sep]; all of [s] when
    [sep] does not occur. *)
Fixpoint textUpTo (sep s : string) : string :=
  if HasPrefix s sep then ""
  else match s with
       | "" => ""
       | String c s' => String c (textUpTo sep s')
       end.

(** The value of the key [key] in the tag of a field that has a tag. *)
Definition tagValue (key : string) (field : Field) : option string :=
  tag ← FieldTag field; Some (mapGet (parseFieldTags tag) key).

(** A field is taggable when it has a tag and the value of its [json] key
    is not the skip marker. *)
Definition taggable (field : Field) : bool :=
  match tagValue "json" field with
  | None => false
  | Some v => negb (String.eqb v "-")
  end.

(** The schema entry of a field with the tag literal [tag] and the
    declared type [type]. *)
Definition entryOf (tag : string) (type : Node) : SchemaField :=
  let tags := parseFieldTags tag in
  let schema := mapGet tags "schema" in
  mkSchemaField
    (mapGet tags "json")
    (getFieldType type)
    (Contains schema "required")
    (if Contains schema "minLength=" then Atoi (textUpTo "," (textAfter "minLength=" schema)) else None)
    (if Contains schema "format=" then textUpTo "," (textUpTo "format=" (textAfter "format=" schema)) else "")
    "".

(** The entries of the taggable fields of a field list, in order. *)
Definition entries (fields : list Field) : list SchemaField :=
  omap (fun field =>
          if taggable field
          then tag ← FieldTag field; Some (entryOf tag (FieldType field))
          else None) fields.

(** The declarations of [typeName] as a structure type that a walk from
    [n] reaches, in the order of the walk, each given by its field list.
    A declaration inside the fields of such a declaration is not
    reached. *)
Fixpoint structDecls (typeName : string) (n : Node) : list (list Field) :=
  match n with
  | Ident _ => []
  | TypeSpec name tparams type =>
      match String.eqb name typeName, type with
      | true, StructType fields => [fields]
      | _, _ => flat_map (structDecls typeName) tparams ++ structDecls typeName type
      end
  | StructType fields =>
      flat_map (fun field => match field with
                             | mkField _ type _ => structDecls typeName type
                             end) fields
  | Other _ children => flat_map (structDecls typeName) children
  end.

(** Some declaration of the tree, at any depth, gives the name [typeName]
    to a structure type. *)
Fixpoint declaresStruct (typeName : string) (n : Node) : bool :=
  match n with
  | Ident _ => false
  | TypeSpec name tparams type =>
      (String.eqb name typeName && match type with StructType _ => true | _ => false end)
      || existsb (declaresStruct typeName) tparams
      || declaresStruct typeName type
  | StructType fields =>
      existsb (fun field => match field with
                            | mkField _ type _ => declaresStruct typeName type
                            end) fields
  | Other _ children => existsb (declaresStruct typeName) children
  end.

(** The nine permission bits of a file mode, from the owner's read bit to
    the others' execute bit. *)
Definition permissionBits (perm : Z) : list bool :=
  map (Z.testbit perm) [8; 7; 6; 5; 4; 3; 2; 1; 0]%Z.

(** The value of the captured variable [schema] after the callback of [main]
    has met the declarations [decls] one after the other, starting from
    [schema]: each one replaces it. *)
Definition located (typeName : string) (schema : option SchemaType)
           (decls : list (list Field)) : option SchemaType :=
  foldl (fun _ fields => Some (mkSchemaType typeName (entries fields))) schema decls.

(** The text printed on success, and the name of the output file. *)
Definition outputFileOf (env : Env) (typeName : string) : string :=
  ToLower (mapUnicodeLower env) typeName +:+ ".schema.json".

Definition confirmation (outputFile : string) : string :=
  "Schema file generated successfully" +:+ LF +:+ " " +:+ "FileName: " +:+ " " +:+
  outputFile +:+ LF.

(** The rendered document of a schema. *)
Definition rendered (schema : SchemaType) : string :=
  match schemaTemplate_Execute schema with
  | inr output => output
  | inl _ => ""
  end.

End Notions.

(* ===================================================================== *)
(** ** Structures and files used as examples *)
(* ===================================================================== *)

Module Examples.
Import GoStrings GoStrconv GoAst GoOs Generator Notions.

(** The structure of the scenario: [ID], [Name], [Email], [IsActive]. *)
Definition scenarioUser : list Field :=
  [ mkField ["ID"] (Ident "int") (Some (lit "`json:'id' schema:'required,min=1'`"));
    mkField ["Name"] (Ident "string") (Some (lit "`json:'name' schema:'required,minLength=2'`"));
    mkField ["Email"] (Ident "string") (Some (lit "`json:'email' schema:'required,format=email'`"));
    mkField ["IsActive"] (Ident "bool") (Some (lit "`json:'isActive'`")) ].

Definition scenarioSchema : SchemaType :=
  mkSchemaType "User"
    [ mkSchemaField "id" "integer" true None "" "";
      mkSchemaField "name" "string" true (Some 2%Z) "" "";
      mkSchemaField "email" "string" true None "email" "";
      mkSchemaField "isActive" "boolean" false None "" "" ].

Definition scenarioDocument : string := lit
"{
    '$schema': 'http://json-schema.org/draft-07/schema#',
    'title': 'User',
    'type': 'object',
    'properties': {
        
        'id': {
            'type': 'integer',
            'required': true
        }
        ,
        'name': {
            'type': 'string',
            'required': true,
            'minLength': 2
        }
        ,
        'email': {
            'type': 'string',
            'required': true,
            'format': 'email'
        }
        ,
        'isActive': {
            'type': 'boolean'
        }
    }
}".

Definition scenarioFile : Node :=
  File "main" [GenDecl [TypeSpec "User" [] (StructType scenarioUser)]].

(** The structure of [user.go]. *)
Definition userGo : list Field :=
  [ mkField ["ID"] (Ident "int") (Some (lit "`json:'id' schema:'required,min=1'`"));
    mkField ["Name"] (Ident "string") (Some (lit "`json:'name' schema:'required,minLength=2'`"));
    mkField ["Username"] (Ident "string") (Some (lit "`json:'username' schema:'required,minLength=5'`"));
    mkField ["Email"] (Ident "string") (Some (lit "`json:'email' schema:'required,format=email'`"));
    mkField ["IsActive"] (Ident "bool") (Some (lit "`json:'isActive'`"));
    mkField ["IgnoreInJson"] (Ident "string") (Some (lit "`json:'-'`"));
    mkField ["NoJSONTag"] (Ident "string") None ].

Definition userGoFile : Node :=
  File "main" [GenDecl [TypeSpec "User" [] (StructType userGo)]].

(** A file that declares [User] twice as a structure: at the top level,
    and then inside the body of a function.
<<
    type User struct { A int `json:"a"` }
    func f() { type User struct { B string `json:"b"` } }
>> *)
Definition firstUser : list Field :=
  [ mkField ["A"] (Ident "int") (Some (lit "`json:'a'`")) ].
Definition secondUser : list Field :=
  [ mkField ["B"] (Ident "string") (Some (lit "`json:'b'`")) ].
Definition twoUsersFile : Node :=
  File "main"
    [ GenDecl [TypeSpec "User" [] (StructType firstUser)];
      FuncDecl "f" [DeclStmt (GenDecl [TypeSpec "User" [] (StructType secondUser)])] ].

(** A file that declares [User] twice as a structure at the top level; the
    parser, which does not check types and is not asked to report
    declaration errors, accepts it.
<<
      type User struct { A int `json:"a"` }
      type User struct { B string `json:"b"` }
>> *)
Definition duplicateUserFile : Node :=
  File "main"
    [ GenDecl [TypeSpec "User" [] (StructType firstUser)];
      GenDecl [TypeSpec "User" [] (StructType secondUser)] ].

(** A file in which [User] is first a name for [int] and then a
    structure. *)
Definition aliasThenStructFile : Node :=
  File "main"
    [ GenDecl [TypeSpec "User" [] (Ident "int")];
      GenDecl [TypeSpec "User" [] (StructType firstUser)] ].

(** A file in which [User] is a name for [int] only. *)
Definition aliasFile : Node :=
  File "main" [GenDecl [TypeSpec "User" [] (Ident "int")]].

(** Fields with one schema option each. *)
Definition minLength3 : Field :=
  mkField ["S"] (Ident "string") (Some (lit "`json:'s' schema:'minLength=3'`")).
Definition minLengthAbc : Field :=
  mkField ["S"] (Ident "string") (Some (lit "`json:'s' schema:'minLength=abc'`")).
Definition minLengthNegative : Field :=
  mkField ["S"] (Ident "string") (Some (lit "`json:'s' schema:'minLength=-5'`")).
Definition skipped : Field :=
  mkField ["Secret"] (Ident "string") (Some (lit "`json:'-' schema:'required,minLength=3'`")).
Definition untagged : Field :=
  mkField ["NoJSONTag"] (Ident "string") None.

(** Surroundings: the parser gives [node] for every path, and the write
    succeeds or fails with [failure]. *)
Definition envOf (node : Node) (failure : option string) : Env :=
  mkEnv (fun _ => inr node) (fun _ => failure) (fun s => s).

End Examples.

(* ===================================================================== *)
(** ** The grammar of tags, and runs one after the other *)
(* ===================================================================== *)

Module TagGrammar.
Import GoStrings GoStrconv GoAst GoOs Generator Notions.

(** The byte [c] does not occur in [s]; the number of its occurrences. *)
Fixpoint noByte (c : ascii) (s : string) : bool :=
  match s with
  | "" => true
  | String d s' => negb (Ascii.eqb d c) && noByte c s'
  end.

Fixpoint countByte (c : ascii) (s : string) : nat :=
  match s with
  | "" => 0
  | String d s' => (if Ascii.eqb d c then 1 else 0) + countByte c s'
  end.

Definition space : ascii := " "%char.
Definition colon : ascii := ":"%char.
Definition backtick : ascii := "`"%char.

(** What one token of a tag does to the mapping, in the words of the
    grammar: a token with exactly one colon binds the text before the colon
    to the text after it, without the double quotes at its two ends; any
    other token is passed over. *)
Definition tagStep (tags : gmap string string) (token : string) : gmap string string :=
  if Nat.eqb (countByte colon token) 1
  then <[textUpTo ":" token := Trim (textAfter ":" token) (String quote "")]> tags
  else tags.

(** A raw string literal that holds the tokens, one space between them. *)
Definition tagLiteral (tokens : list string) : string :=
  "`" +:+ String.concat " " tokens +:+ "`".

(** A key or a value without space, colon, double quote or backtick, and
    the token [key:"value"]. *)
Definition plain (s : string) : bool :=
  noByte space s && noByte colon s && noByte quote s && noByte backtick s.

Definition tagToken (pair : string * string) : string :=
  fst pair +:+ ":" +:+ String quote (snd pair +:+ String quote "").

(** The value that the pairs give to [key]: that of the last pair with this
    key. *)
Definition lastValue (key : string) (pairs : list (string * string)) : option string :=
  snd <$> last (List.filter (fun pair => String.eqb (fst pair) key) pairs).

(** The files after a run. *)
Definition filesAfter (env : Env) (typeName : string) (args : list string)
           (fs : gmap string string) : gmap string string :=
  files (snd (run env typeName args fs)).

(** The writes among the events of a run. *)
Definition writesOf (events : list Event) : list Event :=
  List.filter (fun e => match e with WriteFile _ _ _ _ => true | Stdout _ => false end) events.

(** The byte [c] occurs neither in the title of a schema nor in the name,
    the type, the format or the description of any of its entries. *)
Definition freeOf (c : ascii) (schema : SchemaType) : bool :=
  noByte c (TypeName schema) &&
  forallb (fun entry => noByte c (Name entry) && noByte c (Type_ entry) &&
                        noByte c (Format entry) && noByte c (Description entry))
          (Fields schema).

(** An upper-case letter of ASCII. *)
Definition isUpper (c : ascii) : bool :=
  ((65 <=? nat_of_ascii c) && (nat_of_ascii c <=? 90))%nat.

(** The four types of JSON Schema that the generator knows. *)
Definition schemaTypes : list string := ["string"; "integer"; "number"; "boolean"].

End TagGrammar.

Module MoreExamples.
Import GoStrings GoStrconv GoAst GoOs Generator Notions Examples TagGrammar.

(** Surroundings in which the parser rejects every file. *)
Definition envParseError : Env :=
  mkEnv (fun _ => inl "user.go:1:1: expected 'package', found 'EOF'")
        (fun _ => None) (fun s => s).

(** A file whose only declaration of [User] is local to a function. *)
Definition localUserFile : Node :=
  File "main" [FuncDecl "f" [DeclStmt (GenDecl [TypeSpec "User" [] (StructType userGo)])]].

(** A structure without fields, and a file that declares it. *)
Definition emptyFile : Node :=
  File "main" [GenDecl [TypeSpec "Empty" [] (StructType [])]].

(** The pairs of a tag with an option after the name, and a field that
    carries them. *)
Definition omitemptyPairs : list (string * string) :=
  [("json", "name,omitempty"); ("schema", "required,minLength=2")].
Definition omitemptyField : Field :=
  mkField ["Name"] (Ident "string") (Some (tagLiteral (map tagToken omitemptyPairs))).

(** Tokens of which the second has no colon and the third has two. *)
Definition mixedTokens : list string :=
  [lit "json:'id'"; "required"; lit "schema:'format=date:time'"; lit "xml:'x'"].

(** Fields whose schema value holds [required] inside a longer word, a
    format cut by a second [format=], and an empty format. *)
Definition notRequiredField : Field :=
  mkField ["A"] (Ident "string") (Some (lit "`json:'a' schema:'notrequired'`")).
Definition twoFormatsField : Field :=
  mkField ["B"] (Ident "string") (Some (lit "`json:'b' schema:'format=xformat=y,z'`")).
Definition emptyFormatField : Field :=
  mkField ["C"] (Ident "string") (Some (lit "`json:'c' schema:'format=,required'`")).

(** A field whose minimum length is written with a sign and zeros. *)
Definition plusSevenField : Field :=
  mkField ["S"] (Ident "string") (Some (lit "`json:'s' schema:'minLength=+007'`")).

End MoreExamples.

(* ===================================================================== *)
(** ** Field declarations as they are written, and the members of the
       document *)
(* ===================================================================== *)

Module Declarations.
Import GoStrings GoStrconv GoAst GoOs Generator Notions Examples TagGrammar.

(** The token [json:"-"], which marks a field as left out. *)
Definition skipToken : string := tagToken ("json", "-").

(** Four tags that hold [json:"-"]: one in which a tab, not a space, stands
    between it and the token [schema:"required"]; one written as an
    interpreted string literal, between double quotes and with a backslash
    before each inner double quote; one in which it follows the token
    [xml:"a"] without a space; and one in which the token [json:"secret"]
    follows it after a space. *)
Definition TAB : ascii := "009"%char.
Definition tabSeparated : Field :=
  mkField ["Secret"] (Ident "string")
          (Some ("`" +:+ String.concat (String TAB "") [skipToken; lit "schema:'required'"]
                 +:+ "`")).
Definition interpreted : Field :=
  mkField ["Secret"] (Ident "string") (Some (lit "'json:\'-\''")).
Definition glued : Field :=
  mkField ["Secret"] (Ident "string") (Some ("`" +:+ lit "xml:'a'" +:+ skipToken +:+ "`")).
Definition overridden : Field :=
  mkField ["Secret"] (Ident "string")
          (Some (tagLiteral [skipToken; tagToken ("json", "secret")])).

(** A field marked [json:"-"] among other tokens, separated by spaces. *)
Definition skippedAmongOthers : Field :=
  mkField ["Secret"] (Ident "string")
          (Some (tagLiteral [lit "xml:'secret,attr'"; "a:b:c"; skipToken;
                             lit "schema:'required,minLength=3'"; "json"; lit "yaml:'s'"])).

(** One field declaration as it is written: the names it declares, its
    type, and, when it has a tag, the [key:"value"] pairs of the tag in
    their order.  The tag is the raw string literal of the pairs with one
    space between them. *)
Record FieldDecl := mkFieldDecl {
  declNames : list string;
  declType : Node;
  declPairs : option (list (string * string))
}.

Definition fieldOf (decl : FieldDecl) : Field :=
  mkField (declNames decl) (declType decl)
          ((fun pairs => tagLiteral (map tagToken pairs)) <$> declPairs decl).

(** The keys and the values of the pairs hold no space, colon, double quote
    or backtick. *)
Definition wellFormed (decl : FieldDecl) : Prop :=
  match declPairs decl with
  | None => True
  | Some pairs => Forall (fun pair => plain (fst pair) = true /\ plain (snd pair) = true) pairs
  end.

(** The name under which a declaration appears in the document: none for a
    declaration without a tag and for one whose [json] value, that of the
    last pair with the key [json], is [-]; this value otherwise, empty when
    no pair has the key [json]. *)
Definition memberName (decl : FieldDecl) : option string :=
  pairs ← declPairs decl;
  let name := default "" (lastValue "json" pairs) in
  if String.eqb name "-" then None else Some name.

(** A declaration appears in the document when it has a name there. *)
Definition appears (decl : FieldDecl) : bool :=
  match memberName decl with Some _ => true | None => false end.

(** The names and the schema types of the declarations that appear in the
    document, in the order of the declarations. *)
Definition members (decls : list FieldDecl) : list (string * string) :=
  omap (fun decl => name ← memberName decl; Some (name, getFieldType (declType decl))) decls.

(** The text of one member of the properties object, the member of index
    [i]: a comma before every member but the first, the name between double
    quotes, and an object that starts with the type and goes on with the
    members [optional]. *)
Definition memberBlock (i : nat) (name type optional : string) : string :=
  LF +:+ "        " +:+ (if Nat.eqb i 0 then "" else ",") +:+ LF +:+
  lit "        '" +:+ name +:+ lit "': {" +:+ LF +:+
  lit "            'type': '" +:+ type +:+ lit "'" +:+
  optional +:+
  LF +:+ "        }".

(** The members of an entry after its type. *)
Definition optionalMembers (entry : SchemaField) : string :=
  tplRequired entry +:+ tplMinLength entry +:+ tplFormat entry +:+ tplDescription entry.

(** The text of the whole document with the title [title] and the members
    [blocks] in its properties object. *)
Definition documentOf (title : string) (blocks : list string) : string :=
  lit "{" +:+ LF +:+
  lit "    '$schema': 'http://json-schema.org/draft-07/schema#'," +:+ LF +:+
  lit "    'title': '" +:+ title +:+ lit "'," +:+ LF +:+
  lit "    'type': 'object'," +:+ LF +:+
  lit "    'properties': {" +:+ String.concat "" blocks +:+ LF +:+
  "    }" +:+ LF +:+
  "}".

(** The structure of [user.go], declaration by declaration. *)
Definition userGoDecls : list FieldDecl :=
  [ mkFieldDecl ["ID"] (Ident "int") (Some [("json", "id"); ("schema", "required,min=1")]);
    mkFieldDecl ["Name"] (Ident "string")
                (Some [("json", "name"); ("schema", "required,minLength=2")]);
    mkFieldDecl ["Username"] (Ident "string")
                (Some [("json", "username"); ("schema", "required,minLength=5")]);
    mkFieldDecl ["Email"] (Ident "string")
                (Some [("json", "email"); ("schema", "required,format=email")]);
    mkFieldDecl ["IsActive"] (Ident "bool") (Some [("json", "isActive")]);
    mkFieldDecl ["IgnoreInJson"] (Ident "string") (Some [("json", "-")]);
    mkFieldDecl ["NoJSONTag"] (Ident "string") None ].

(** One declaration that gives two fields the same tag.
<<
    type Pair struct { A, B string `json:"x"` }
>> *)
Definition twoNames : Field :=
  mkField ["A"; "B"] (Ident "string") (Some (lit "`json:'x'`")).

End Declarations.

(* ===================================================================== *)
(** ** The command line, and the input file among the files *)
(* ===================================================================== *)

Module CommandLine.
Import GoStrings GoStrconv GoAst GoOs Generator Notions Examples TagGrammar.

(** How [flag.Parse] ends: it exits, or it returns and leaves the value of
    the flag [-type] and the arguments after the flags. *)
Inductive FlagOutcome :=
| FlagExit (code : Z)
| FlagDone (typeName : string) (args : list string).

(** [flag.Parse()] on the command line [arguments], that is [os.Args[1:]],
    with [-type] as the only defined flag, a string flag whose value so far
    is [typeName].  The loop of [FlagSet.Parse] calls [parseOne] until it
    sees no flag:
    - an argument shorter than two bytes or without a leading [-] ends the
      flags, and stays among the arguments;
    - [--] ends the flags, and is dropped;
    - one or two [-] are taken off the name; a name that is then empty or
      starts with [-] or [=] is an error;
    - the name ends at the first [=] after its first byte, and what
      follows is the value;
    - a flag that is not defined is an error, unless it is [help] or [h];
    - [-type] without [=] takes the next argument as its value, whatever
      it is, and is an error when there is none.
    With the handling [ExitOnError] of the command line an error exits with
    status 2, and [help] or [h] with status 0; the messages and the usage
    go to the standard error, which the events do not record. *)
Fixpoint flagParse (typeName : string) (arguments : list string) {struct arguments}
  : FlagOutcome :=
  match arguments with
  | [] => FlagDone typeName []
  | s :: rest =>
      match s with
      | String c0 (String c1 tail) =>
          if negb (Ascii.eqb c0 "-") then FlagDone typeName arguments
          else if Ascii.eqb c1 "-" && String.eqb tail "" then FlagDone typeName rest
          else
            let name := if Ascii.eqb c1 "-" then tail else String c1 tail in
            match name with
            | "" => FlagExit 2
            | String n0 ntail =>
                if Ascii.eqb n0 "-" || Ascii.eqb n0 "=" then FlagExit 2
                else
                  let (name, given) :=
                    match Index ntail "=" with
                    | Some i => (String n0 (sliceTo i ntail), Some (sliceFrom (S i) ntail))
                    | None => (name, None)
                    end in
                  if String.eqb name "type" then
                    match given, rest with
                    | Some value, _ => flagParse value rest
                    | None, value :: rest' => flagParse value rest'
                    | None, [] => FlagExit 2
                    end
                  else if String.eqb name "help" || String.eqb name "h" then FlagExit 0
                  else FlagExit 2
            end
      | _ => FlagDone typeName arguments
      end
  end.

(** The program on a command line: [flag.String("type", "", ..)],
    [flag.Parse()], and then the rest of [main]. *)
Definition command (env : Env) (arguments : list string) (fs : gmap string string)
  : Z * OS :=
  match flagParse "" arguments with
  | FlagExit code => (code, mkOS [] fs)
  | FlagDone typeName args => run env typeName args fs
  end.

(** Surroundings in which the parser reads the input file from the files.
    The files are held under the names by which [os.WriteFile] writes
    them, and [fileOf] gives for a path the name of the file it leads to:
    several paths can lead to one file.  A path that leads to no file gives
    the error [openError], and the text of a file gives the tree or the
    error [parseSource]. *)
Definition envOn (fileOf : string -> string) (parseSource : string -> string + Node)
           (openError : string -> string) (writeErr : string -> option string)
           (lower : string -> string) (fs : gmap string string) : Env :=
  mkEnv (fun path => match fs !! fileOf path with
                     | Some source => parseSource source
                     | None => inl (openError path)
                     end)
        writeErr lower.

(** A run in which the parser reads the files as they are when the run
    starts. *)
Definition runOn (fileOf : string -> string) (parseSource : string -> string + Node)
           (openError : string -> string) (writeErr : string -> option string)
           (lower : string -> string) (typeName : string) (args : list string)
           (fs : gmap string string) : Z * OS :=
  run (envOn fileOf parseSource openError writeErr lower fs) typeName args fs.

(** A source text, the tree a parser gives for it, and a parser that knows
    this text only. *)
Definition oneUserSource : string :=
  lit "package main" +:+ LF +:+ lit "type User struct { A int `json:'a'` }" +:+ LF.
Definition oneUserFile : Node :=
  File "main" [GenDecl [TypeSpec "User" [] (StructType firstUser)]].
Definition parseOneUser (source : string) : string + Node :=
  if String.eqb source oneUserSource then inr oneUserFile
  else inl "1:1: expected 'package'".
Definition noSuchFile (path : string) : string :=
  "open " +:+ path +:+ ": no such file or directory".

(** Paths in a directory without subdirectories and links: a leading [./]
    does not count. *)
Definition flatDirectory (path : string) : string :=
  if HasPrefix path "./" then sliceFrom 2 path else path.

End CommandLine.

(* ===================================================================== *)
(** ** Lemmas on the string functions *)
(* ===================================================================== *)

Import GoStrings GoStrconv GoAst GoOs Generator Notions Examples TagGrammar MoreExamples.
Import Declarations CommandLine.

Lemma Index_unfold (s substr : string) :
  Index s substr =
    if HasPrefix s substr then Some 0
    else match s with
         | "" => None
         | String _ s' => S <$> Index s' substr
         end.
Proof. destruct s; reflexivity. Qed.

Lemma textAfter_unfold (sep s : string) :
  textAfter sep s =
    if HasPrefix s sep then sliceFrom (String.length sep) s
    else match s with
         | "" => ""
         | String _ s' => textAfter sep s'
         end.
Proof. destruct s; reflexivity. Qed.

Lemma textUpTo_unfold (sep s : string) :
  textUpTo sep s =
    if HasPrefix s sep then ""
    else match s with
         | "" => ""
         | String c s' => String c (textUpTo sep s')
         end.
Proof. destruct s; reflexivity. Qed.

Lemma sliceTo_0 (s : string) : sliceTo 0 s = "".
Proof. destruct s; reflexivity. Qed.

Lemma HasPrefix_length (s prefix : string) :
  HasPrefix s prefix = true -> String.length prefix <= String.length s.
Proof.
  revert s; induction prefix as [|p prefix IH]; intros s H; simpl.
  - lia.
  - destruct s as [|c s]; simpl in H; [discriminate|].
    apply andb_true_iff in H as [_ H]. apply IH in H. simpl. lia.
Qed.

(** Where [Index] finds [sep], the two slices that [genSplit] cuts are the
    text before and the text after the first occurrence. *)
Lemma Index_Some_slices (sep s : string) (i : nat) :
  Index s sep = Some i ->
  sliceTo i s = textUpTo sep s /\
  sliceFrom (i + String.length sep) s = textAfter sep s /\
  i + String.length sep <= String.length s.
Proof.
  revert i; induction s as [|c s IH]; intros i;
    rewrite Index_unfold, textAfter_unfold, textUpTo_unfold;
    destruct (HasPrefix _ sep) eqn:Hp.
  - intros [= <-]. apply HasPrefix_length in Hp. auto.
  - discriminate.
  - intros [= <-]. apply HasPrefix_length in Hp. auto.
  - destruct (Index s sep) as [j|] eqn:Hj; [|discriminate].
    intros [= <-]. destruct (IH j eq_refl) as (H1 & H2 & H3).
    simpl. rewrite H1, H2. repeat split; lia.
Qed.

Lemma Index_None_textUpTo (sep s : string) :
  Index s sep = None -> textUpTo sep s = s.
Proof.
  induction s as [|c s IH]; rewrite Index_unfold, textUpTo_unfold;
    destruct (HasPrefix _ sep); try discriminate; [reflexivity|].
  destruct (Index s sep); [discriminate|]. intros _. by rewrite IH.
Qed.

Lemma Contains_Index (s sep : string) :
  Contains s sep = true -> exists i, Index s sep = Some i.
Proof. unfold Contains. destruct (Index s sep); [eauto|discriminate]. Qed.

Lemma sliceFrom_length (n : nat) (s : string) :
  String.length (sliceFrom n s) = String.length s - n.
Proof.
  revert s; induction n as [|n IH]; intros [|c s]; simpl; auto.
Qed.

(** The head of what [splitLoop] returns. *)
Lemma splitLoop_head (n : nat) (s sep : string) :
  (n = 0 -> Index s sep = None) ->
  splitLoop n s sep !! 0 = Some (textUpTo sep s).
Proof.
  intros Hn. destruct n as [|n]; simpl.
  - by rewrite Index_None_textUpTo by auto.
  - destruct (Index s sep) as [i|] eqn:Hi; simpl.
    + by destruct (Index_Some_slices _ _ _ Hi) as [-> _].
    + by rewrite Index_None_textUpTo.
Qed.

Lemma countLoop_0 (fuel : nat) (s sep : string) :
  sep <> "" -> String.length s <= fuel ->
  countLoop fuel s sep = 0 -> Index s sep = None.
Proof.
  intros Hsep Hlen. destruct fuel as [|fuel]; simpl.
  - intros _. destruct s; [|simpl in Hlen; lia].
    destruct sep; [done|reflexivity].
  - destruct (Index s sep); [discriminate|done].
Qed.

Lemma eqb_empty_false (sep : string) : sep <> "" -> String.eqb sep "" = false.
Proof. intros H. by apply String.eqb_neq. Qed.

(** [strings.SplitN(s, sep, 2)] *)
Lemma SplitN_2_found (s sep : string) :
  sep <> "" -> Contains s sep = true ->
  SplitN s sep 2 = [textUpTo sep s; textAfter sep s].
Proof.
  intros Hsep [i Hi]%Contains_Index.
  destruct (Index_Some_slices _ _ _ Hi) as (H1 & H2 & H3).
  unfold SplitN, genSplit. rewrite eqb_empty_false by done.
  assert (0 < String.length sep) by (destruct sep; [done|simpl; lia]).
  destruct (String.length s + 1 <? 2)%nat eqn:Hlt.
  { apply Nat.ltb_lt in Hlt. lia. }
  simpl. by rewrite Hi, H1, H2.
Qed.

Lemma SplitN_2_head (s sep : string) :
  sep <> "" -> SplitN s sep 2 !! 0 = Some (textUpTo sep s).
Proof.
  intros Hsep. unfold SplitN, genSplit. rewrite eqb_empty_false by done.
  apply splitLoop_head. intros Hn.
  destruct (String.length s + 1 <? 2)%nat eqn:Hlt; [|simpl in Hn; lia].
  apply Nat.ltb_lt in Hlt. destruct s; [|simpl in Hlt; lia].
  destruct sep; [done|reflexivity].
Qed.

(** [strings.Split(s, sep)] *)
Lemma Split_head (s sep : string) :
  sep <> "" -> Split s sep !! 0 = Some (textUpTo sep s).
Proof.
  intros Hsep. unfold Split, genSplit. rewrite eqb_empty_false by done.
  apply splitLoop_head. intros Hn.
  destruct (Index s sep) as [i|] eqn:Hi; [exfalso|done].
  destruct (Index_Some_slices _ _ _ Hi) as (_ & _ & H3).
  assert (0 < String.length sep) by (destruct sep; [done|simpl; lia]).
  unfold Count in Hn. destruct (String.length s) as [|k] eqn:Hk; [lia|].
  simpl in Hn. rewrite Hi in Hn.
  destruct (_ <? _)%nat; lia.
Qed.

Lemma Split_second (s sep : string) :
  sep <> "" -> Contains s sep = true ->
  Split s sep !! 1 = Some (textUpTo sep (textAfter sep s)).
Proof.
  intros Hsep [i Hi]%Contains_Index.
  destruct (Index_Some_slices _ _ _ Hi) as (H1 & H2 & H3).
  assert (0 < String.length sep) by (destruct sep; [done|simpl; lia]).
  unfold Split, genSplit. rewrite eqb_empty_false by done.
  unfold Count. destruct (String.length s) as [|k] eqn:Hk; [lia|].
  simpl countLoop. rewrite Hi, H2.
  set (c := countLoop k (textAfter sep s) sep).
  assert (Hrest : String.length (textAfter sep s) <= k).
  { rewrite <- H2, sliceFrom_length. lia. }
  assert (Hc : c = 0 -> Index (textAfter sep s) sep = None).
  { by apply countLoop_0. }
  destruct (S k + 1 <? S c + 1)%nat eqn:Hlt.
  - replace (S k + 1 - 1) with (S k) by lia. simpl. rewrite Hi, H2. simpl.
    apply splitLoop_head. intros ->.
    destruct (textAfter sep s); [|simpl in Hrest; lia].
    destruct sep; [done|reflexivity].
  - replace (S c + 1 - 1) with (S c) by lia. simpl. rewrite Hi, H2. simpl.
    by apply splitLoop_head.
Qed.

(** The bounds of the loops of [Count] and [genSplit] are never reached
    before the string is used up: [Split] cuts at every occurrence of the
    separator, as the loop without a bound does. *)
Lemma Index_Some_nonempty (s sep : string) (i : nat) :
  sep <> "" -> Index s sep = Some i -> 0 < String.length s.
Proof.
  intros Hsep Hi. destruct (Index_Some_slices _ _ _ Hi) as (_ & _ & H).
  destruct sep; [done|]. simpl in H. lia.
Qed.

Lemma splitLoop_Count (sep : string) (fuel : nat) :
  sep <> "" ->
  forall (s : string) (n : nat),
    String.length s <= fuel -> String.length s <= n ->
    splitLoop (countLoop fuel s sep) s sep = splitLoop n s sep.
Proof.
  intros Hsep. induction fuel as [|fuel IH]; intros s n Hfuel Hn.
  - destruct s; [|simpl in Hfuel; lia].
    assert (Index "" sep = None) as Hi by (destruct sep; [done|reflexivity]).
    destruct n; cbn [splitLoop countLoop]; by rewrite ?Hi.
  - cbn [countLoop]. destruct (Index s sep) as [i|] eqn:Hi.
    + pose proof (Index_Some_nonempty _ _ _ Hsep Hi).
      destruct (Index_Some_slices _ _ _ Hi) as (_ & _ & Hlen).
      assert (0 < String.length sep) by (destruct sep; [done|simpl; lia]).
      destruct n as [|n]; [lia|]. cbn [splitLoop]. rewrite Hi. f_equal.
      apply IH; rewrite sliceFrom_length; lia.
    + destruct n; cbn [splitLoop]; by rewrite ?Hi.
Qed.

Lemma Split_unbounded (s sep : string) (n : nat) :
  sep <> "" -> String.length s <= n -> Split s sep = splitLoop n s sep.
Proof.
  intros Hsep Hn. unfold Split, genSplit. rewrite eqb_empty_false by done.
  destruct (_ <? _)%nat eqn:Hcap.
  - replace (String.length s + 1 - 1) with (String.length s) by lia.
    rewrite <- (splitLoop_Count sep (String.length s) Hsep s (String.length s)) by lia.
    by apply splitLoop_Count.
  - replace (Count s sep + 1 - 1) with (Count s sep) by lia.
    by apply splitLoop_Count.
Qed.

(** The text before and the text after the first occurrence put [s]
    together again around [sep]. *)
Lemma textUpTo_textAfter (sep s : string) :
  Contains s sep = true ->
  s = textUpTo sep s +:+ sep +:+ textAfter sep s.
Proof.
  intros [i Hi]%Contains_Index. revert i Hi.
  induction s as [|c s IH]; intros i;
    rewrite Index_unfold, textAfter_unfold, textUpTo_unfold;
    destruct (HasPrefix _ sep) eqn:Hp; try discriminate.
  - intros _. destruct sep; [done|discriminate].
  - intros _. clear IH. change ("" +:+ ?x) with x.
    revert Hp. generalize (String c s). clear.
    induction sep as [|p sep IH]; intros s Hp; [done|].
    destruct s as [|c s]; [discriminate|]. cbn in Hp.
    apply andb_true_iff in Hp as [->%Ascii.eqb_eq Hp].
    cbn [String.length sliceFrom]. change (String p sep +:+ ?x) with (String p (sep +:+ x)).
    f_equal. by apply IH.
  - destruct (Index s sep) as [j|] eqn:Hj; [|discriminate]. intros _.
    change (String c ?x +:+ ?y) with (String c (x +:+ y)). f_equal. by eapply IH.
Qed.

(** ** Lemmas on [strconv.Atoi] *)

Lemma digitsFrom_bound (s : string) (acc v : Z) :
  (0 <= acc)%Z -> digitsFrom acc s = Some v ->
  (0 <= v < (acc + 1) * 10 ^ Z.of_nat (String.length s))%Z.
Proof.
  revert acc; induction s as [|c s IH]; intros acc Hacc; cbn [digitsFrom String.length].
  - intros [= <-]. lia.
  - unfold digit. destruct (_ && _)%nat eqn:Hd; [|discriminate].
    apply andb_true_iff in Hd as [H1%Nat.leb_le H2%Nat.leb_le].
    intros Hv. apply IH in Hv; [|lia].
    rewrite Nat2Z.inj_succ, Z.pow_succ_r by lia. nia.
Qed.

(** The fast path of [Atoi] is an optimisation only: [Atoi] accepts an
    optional sign followed by one or more decimal digits whose value is in
    the range of [int], and nothing else. *)
Lemma Atoi_ParseInt10 (s : string) : Atoi s = ParseInt10 s.
Proof.
  unfold Atoi. destruct (_ && _)%nat eqn:Hlen; [|done].
  apply andb_true_iff in Hlen as [_ Hlen%Nat.ltb_lt].
  unfold ParseInt10. destruct s as [|c0 rest]; [done|].
  set (body := if isSign c0 then rest else String c0 rest).
  assert (Hbody : String.length body < 19).
  { subst body. destruct (isSign c0); simpl in *; lia. }
  destruct body as [|b body'] eqn:Eb; [done|]. rewrite <- Eb in *.
  destruct (digitsFrom 0 body) as [un|] eqn:Hun; [|done].
  apply digitsFrom_bound in Hun; [|lia].
  assert (10 ^ Z.of_nat (String.length body) <= 10 ^ 18)%Z.
  { apply Z.pow_le_mono_r; lia. }
  assert (un < 2 ^ (intSize - 1))%Z.
  { unfold intSize. change (2 ^ (64 - 1))%Z with 9223372036854775808%Z.
    change (10 ^ 18)%Z with 1000000000000000000%Z in *. lia. }
  destruct (Ascii.eqb c0 "-"); cbn [negb andb].
  - destruct (Z.ltb_spec (2 ^ (intSize - 1)) un); [lia|done].
  - destruct (Z.leb_spec (2 ^ (intSize - 1)) un); [lia|done].
Qed.

(* ===================================================================== *)
(** ** Lemmas on [parseStruct] *)
(* ===================================================================== *)

Lemma SchemaType_eta (schema : SchemaType) :
  mkSchemaType (TypeName schema) (Fields schema ++ []) = schema.
Proof. destruct schema; simpl. by rewrite app_nil_r. Qed.

(** One round of the loop never panics: it appends the entry of a taggable
    field and leaves the schema alone on any other field. *)
Lemma parseStructField_entries (schema : SchemaType) (field : Field) :
  parseStructField schema field =
    Some (mkSchemaType (TypeName schema) (Fields schema ++ entries [field])).
Proof.
  unfold parseStructField, entries, taggable, tagValue. simpl.
  destruct (FieldTag field) as [tag|]; simpl; [|by rewrite SchemaType_eta].
  destruct (String.eqb (mapGet (parseFieldTags tag) "json") "-"); simpl;
    [by rewrite SchemaType_eta|].
  unfold entryOf.
  set (sch := mapGet (parseFieldTags tag) "schema").
  destruct (Contains sch "minLength=") eqn:Hmin;
    destruct (Contains sch "format=") eqn:Hfmt; simpl.
  all: try (rewrite SplitN_2_found by done; simpl;
            rewrite SplitN_2_head by done; simpl).
  all: try (rewrite Split_second by done; simpl;
            rewrite Split_head by done; simpl).
  all: try match goal with |- context [Atoi ?x] => destruct (Atoi x) end.
  all: reflexivity.
Qed.

Lemma entries_app (l1 l2 : list Field) :
  entries (l1 ++ l2) = entries l1 ++ entries l2.
Proof. apply omap_app. Qed.

Lemma parseStruct_fold (fields : list Field) (schema : SchemaType) :
  foldl (fun acc field => schema ← acc; parseStructField schema field)
        (Some schema) fields =
    Some (mkSchemaType (TypeName schema) (Fields schema ++ entries fields)).
Proof.
  revert schema; induction fields as [|field fields IH]; intros schema; simpl.
  - by rewrite SchemaType_eta.
  - rewrite parseStructField_entries, IH. cbn [TypeName Fields].
    by rewrite <- app_assoc, <- entries_app.
Qed.

(** [parseStruct] never panics, and its fields are the entries of the
    taggable fields, in order. *)
Lemma parseStruct_entries (typeName : string) (fields : list Field) :
  parseStruct typeName fields = Some (mkSchemaType typeName (entries fields)).
Proof. unfold parseStruct. by rewrite parseStruct_fold. Qed.

(* ===================================================================== *)
(** ** Lemmas on the walk of the tree *)
(* ===================================================================== *)


Section Walk_equations.
Context {S : Type} (f : AnyNode -> S -> option (bool * S)).

Lemma Walk_TypeSpec name tparams type s :
  Walk f (TypeSpec name tparams type) s =
    '(descend, s1) ← f (ANode (TypeSpec name tparams type)) s;
    if descend : bool then
      s2 ← (s' ← walkLeaf f (ANode (Ident name)) s1;
            s'' ← walkNodes f tparams s';
            Walk f type s'');
      snd <$> f ANil s2
    else Some s1.
Proof. reflexivity. Qed.

Lemma Walk_StructType fields s :
  Walk f (StructType fields) s =
    '(descend, s1) ← f (ANode (StructType fields)) s;
    if descend : bool then
      s2 ← ('(descend', s') ← f (AFieldList fields) s1;
            if descend' : bool then
              s'' ← walkFields f fields s'; snd <$> f ANil s''
            else Some s');
      snd <$> f ANil s2
    else Some s1.
Proof. reflexivity. Qed.

Lemma Walk_Other kind children s :
  Walk f (Other kind children) s =
    '(descend, s1) ← f (ANode (Other kind children)) s;
    if descend : bool then
      s2 ← walkNodes f children s1; snd <$> f ANil s2
    else Some s1.
Proof. reflexivity. Qed.

Lemma WalkField_mkField names type tag s :
  WalkField f (mkField names type tag) s =
    '(descend, s1) ← f (AField (mkField names type tag)) s;
    if descend : bool then
      s2 ← (s' ← walkIdents f names s1;
            s'' ← Walk f type s';
            match tag with
            | Some v => walkLeaf f (ANode (BasicLit v)) s''
            | None => Some s''
            end);
      snd <$> f ANil s2
    else Some s1.
Proof. reflexivity. Qed.
End Walk_equations.

Lemma located_app typeName schema l1 l2 :
  located typeName schema (l1 ++ l2) = located typeName (located typeName schema l1) l2.
Proof. apply foldl_app. Qed.

Lemma walkIdents_inspector typeName names schema :
  walkIdents (inspector typeName) names schema = Some schema.
Proof. induction names as [|x names IH]; simpl; [done|exact IH]. Qed.

Lemma walkNodes_inspector typeName (l : list Node) :
  Forall (fun n => forall schema,
            Walk (inspector typeName) n schema =
              Some (located typeName schema (structDecls typeName n))) l ->
  forall schema,
    walkNodes (inspector typeName) l schema =
      Some (located typeName schema (flat_map (structDecls typeName) l)).
Proof.
  induction 1 as [|n l Hn _ IH]; intros schema; simpl; [done|].
  rewrite Hn. simpl. by rewrite IH, located_app.
Qed.

Lemma inspector_TypeSpec typeName name tparams type schema :
  inspector typeName (ANode (TypeSpec name tparams type)) schema =
    match String.eqb name typeName, type with
    | true, StructType fields => Some (false, Some (mkSchemaType typeName (entries fields)))
    | _, _ => Some (true, schema)
    end.
Proof.
  cbn. destruct (String.eqb name typeName) eqn:Hname; cbn; [|done].
  apply String.eqb_eq in Hname as ->.
  destruct type; try done. by rewrite parseStruct_entries.
Qed.

(** The walk with the callback of [main] never panics, and it leaves in
    [schema] the schema of the last declaration it has reached. *)
Lemma Walk_inspector typeName (n : Node) (schema : option SchemaType) :
  Walk (inspector typeName) n schema =
    Some (located typeName schema (structDecls typeName n)).
Proof.
  revert schema.
  induction n as [name|name tparams type IHt IH|fields IHf|kind children IHc
                 |names type tag IH] using Node_induction
    with (Q := fun fld => forall schema,
                 WalkField (inspector typeName) fld schema =
                   Some (located typeName schema
                           (structDecls typeName (FieldType fld))));
    intros schema.
  - reflexivity.
  - rewrite Walk_TypeSpec, inspector_TypeSpec. cbn [structDecls].
    assert (Hgo : forall s0,
      (s' ← walkLeaf (inspector typeName) (ANode (Ident name)) s0;
       s'' ← walkNodes (inspector typeName) tparams s';
       Walk (inspector typeName) type s'') =
        Some (located typeName s0
                (flat_map (structDecls typeName) tparams ++ structDecls typeName type))).
    { intros s0. unfold walkLeaf. cbn.
      rewrite (walkNodes_inspector _ _ IHt). cbn.
      by rewrite IH, located_app. }
    destruct (String.eqb name typeName) eqn:Hname; [destruct type|].
    all: try (cbn [mbind option_bind]; rewrite Hgo; reflexivity).
    reflexivity.
  - rewrite Walk_StructType. cbn.
    assert (Hf : forall schema,
      walkFields (inspector typeName) fields schema =
        Some (located typeName schema
                (flat_map (fun field => structDecls typeName (FieldType field)) fields))).
    { clear schema. induction IHf as [|fld l Hfld _ IHl]; intros schema; simpl; [done|].
      rewrite Hfld. simpl. by rewrite IHl, located_app. }
    rewrite Hf. cbn. do 2 f_equal.
    clear. induction fields as [|[] ? IHl]; simpl; [done|by rewrite IHl].
  - rewrite Walk_Other. cbn.
    rewrite (walkNodes_inspector _ _ IHc). reflexivity.
  - rewrite WalkField_mkField. cbn.
    rewrite walkIdents_inspector. cbn. rewrite IH. cbn.
    by destruct tag.
Qed.

(** Without a declaration of the name as a structure at any depth, the walk
    reaches none. *)
Lemma declaresStruct_false typeName (n : Node) :
  declaresStruct typeName n = false -> structDecls typeName n = [].
Proof.
  induction n as [name|name tparams type IHt IH|fields IHf|kind children IHc
                 |names type tag IH] using Node_induction
    with (Q := fun fld => declaresStruct typeName (FieldType fld) = false ->
                          structDecls typeName (FieldType fld) = []).
  - done.
  - cbn [declaresStruct structDecls].
    intros [[Hhere Htp]%orb_false_iff Hty]%orb_false_iff.
    assert (Hrest : flat_map (structDecls typeName) tparams ++ structDecls typeName type = []).
    { rewrite (IH Hty), app_nil_r. clear -IHt Htp.
      induction IHt as [|x l Hx _ IHl]; [done|]. cbn in *.
      apply orb_false_iff in Htp as [Hx' Hl]. by rewrite (Hx Hx'), (IHl Hl). }
    destruct (String.eqb name typeName); [|done].
    destruct type; try done.
  - cbn [declaresStruct structDecls]. intros Hf.
    induction IHf as [|[names type tag] l Hx _ IHl]; [done|]. cbn in *.
    apply orb_false_iff in Hf as [Hx' Hl]. by rewrite (Hx Hx'), (IHl Hl).
  - cbn [declaresStruct structDecls]. intros Hc.
    induction IHc as [|x l Hx _ IHl]; [done|]. cbn in *.
    apply orb_false_iff in Hc as [Hx' Hl]. by rewrite (Hx Hx'), (IHl Hl).
  - exact IH.
Qed.

(* ===================================================================== *)
(** ** Lemmas on the template and on a run *)
(* ===================================================================== *)

Lemma append_empty_r (s : string) : s +:+ "" = s.
Proof.
  induction s as [|c s IH]; [done|].
  change (String c (s +:+ "") = String c s). by f_equal.
Qed.

Lemma tplRange_imap (i : nat) (fields : list SchemaField) :
  tplRange i fields = String.concat "" (imap (fun j => tplField (i + j)) fields).
Proof.
  revert i; induction fields as [|field fields IH]; intros i; [done|].
  cbn [tplRange imap]. rewrite IH, Nat.add_0_r.
  assert (Himap : imap (fun j => tplField (S i + j)) fields =
                  imap ((fun j => tplField (i + j)) ∘ S) fields).
  { apply imap_ext. intros j x _. simpl. f_equal. lia. }
  rewrite Himap. generalize (imap ((fun j => tplField (i + j)) ∘ S) fields).
  intros [|member members]; cbn [String.concat]; [apply append_empty_r|done].
Qed.

Lemma entries_filter (fields : list Field) :
  Forall2 (fun entry field =>
             exists tag, FieldTag field = Some tag /\ entry = entryOf tag (FieldType field))
          (entries fields) (List.filter taggable fields).
Proof.
  induction fields as [|field fields IH]; [constructor|].
  unfold entries in *. cbn [omap list_omap List.filter].
  destruct (taggable field) eqn:Ht; [|exact IH].
  unfold taggable, tagValue in Ht.
  destruct (FieldTag field) as [tag|] eqn:Htag; [|discriminate].
  cbn. constructor; [eauto|exact IH].
Qed.

Lemma located_last typeName (decls : list (list Field)) :
  located typeName None decls =
    (fun fields => mkSchemaType typeName (entries fields)) <$> last decls.
Proof.
  induction decls as [|fields decls _] using rev_ind; [done|].
  unfold located. by rewrite foldl_app, last_snoc.
Qed.

(** What [generateSchemaFile] does: the confirmation, then the write. *)
Lemma generateSchemaFile_run env schema os :
  let name := outputFileOf env (TypeName schema) in
  generateSchemaFile env schema os =
    (Returned (writeError env name),
     mkOS (trace os ++ [Stdout (confirmation name)] ++
             [WriteFile name (rendered schema) 420 (writeError env name)])
          (match writeError env name with
           | None => <[name := rendered schema]> (files os)
           | Some _ => files os
           end)).
Proof.
  cbn zeta. unfold generateSchemaFile, rendered, schemaTemplate_Execute.
  unfold mbind, M_bind, bind, fmtPrint, emit, osWriteFile, outputFileOf, confirmation.
  cbn [trace files].
  destruct (writeError env _); by rewrite <- (assoc_L (++)).
Qed.

(** A run that has a type name, an input file and a parsed tree. *)
Lemma run_parsed env typeName inputFile rest node fs :
  typeName <> "" ->
  ParseFile env inputFile = inr node ->
  run env typeName (inputFile :: rest) fs =
    match last (structDecls typeName node) with
    | None =>
        (1%Z,
         mkOS [Stdout ("Type " +:+ typeName +:+ " not found in " +:+ inputFile +:+ LF)] fs)
    | Some fields =>
        let schema := mkSchemaType typeName (entries fields) in
        let name := outputFileOf env typeName in
        match writeError env name with
        | None =>
            (0%Z,
             mkOS [Stdout (confirmation name); WriteFile name (rendered schema) 420 None]
                  (<[name := rendered schema]> fs))
        | Some err =>
            (1%Z,
             mkOS [Stdout (confirmation name);
                   WriteFile name (rendered schema) 420 (Some err);
                   Stdout ("Error generating schema: " +:+ err +:+ LF)] fs)
        end
    end.
Proof.
  intros Hname Hparse. unfold run, main.
  apply String.eqb_neq in Hname. rewrite Hname.
  unfold mbind at 1 2 3 4 5. unfold M_bind, bind, mret, M_ret, ret. cbn beta iota.
  rewrite Hparse. cbn beta iota.
  unfold orPanic, Inspect. rewrite Walk_inspector, located_last.
  destruct (last (structDecls typeName node)) as [fields|]; cbn [fmap option_fmap option_map];
    [|reflexivity].
  unfold mbind, M_bind, bind. rewrite generateSchemaFile_run.
  cbn [TypeName trace files app].
  by destruct (writeError env (outputFileOf env typeName)).
Qed.

(* ===================================================================== *)
(** ** Properties of the generator *)
(* ===================================================================== *)

(** C1.  On the structure of the scenario, with the type name [User], the
    generator builds four entries, named [id], [name], [email] and
    [isActive] in this order: [id] is a required integer without a minimum
    length ([min=1] is not [minLength=]), [email] is a required string of
    format [email], [isActive] is a boolean that is not required; and the
    rendered document has these four members and no other. *)
Theorem C1_scenario_user :
  parseStruct "User" scenarioUser = Some scenarioSchema /\
  map Name (Fields scenarioSchema) = ["id"; "name"; "email"; "isActive"] /\
  schemaTemplate_Execute scenarioSchema = inr scenarioDocument /\
  run (envOf scenarioFile None) "User" ["user.go"] ∅ =
    (0%Z,
     mkOS [Stdout (confirmation "user.schema.json");
           WriteFile "user.schema.json" scenarioDocument 420 None]
          {["user.schema.json" := scenarioDocument]}).
Proof. by vm_compute. Qed.

(** C2, as the code has it.  The walk meets the declarations of the tree
    depth first in source order, those inside function bodies included.  A
    declaration of the target name whose type is not a structure is walked
    through like any other node, and the walk goes on after it.  Each
    declaration of the target name as a structure type replaces the schema
    found so far, so that the fields used are those of the last such
    declaration reached; without any, no schema is found. *)
Theorem C2_last_declaration_is_used :
  (forall (typeName : string) (node : Node),
     match last (structDecls typeName node) with
     | Some fields =>
         exists schema : SchemaType,
           parseStruct typeName fields = Some schema /\
           Inspect (inspector typeName) node None = Some (Some schema)
     | None => Inspect (inspector typeName) node None = Some None
     end) /\
  structDecls "User" aliasThenStructFile = [firstUser] /\
  Inspect (inspector "User") aliasThenStructFile None =
    Some (Some (mkSchemaType "User" [mkSchemaField "a" "integer" false None "" ""])).
Proof.
  split; [|by vm_compute].
  intros typeName node. unfold Inspect. rewrite Walk_inspector, located_last.
  destruct (last (structDecls typeName node)) as [fields|]; [|done].
  eexists. split; [apply parseStruct_entries|done].
Qed.

(** C2 as stated fails on a file that declares [User] twice as a structure,
    be it twice at the top level or once at the top level and once inside a
    function: the declarations are met in source order, and the schema is
    built from the fields of the second one, not of the first. *)
Lemma C2_first_declaration_is_not_used :
  structDecls "User" duplicateUserFile = [firstUser; secondUser] /\
  structDecls "User" twoUsersFile = [firstUser; secondUser] /\
  parseStruct "User" firstUser =
    Some (mkSchemaType "User" [mkSchemaField "a" "integer" false None "" ""]) /\
  parseStruct "User" secondUser =
    Some (mkSchemaType "User" [mkSchemaField "b" "string" false None "" ""]) /\
  Inspect (inspector "User") duplicateUserFile None =
    Some (Some (mkSchemaType "User" [mkSchemaField "b" "string" false None "" ""])) /\
  Inspect (inspector "User") twoUsersFile None =
    Some (Some (mkSchemaType "User" [mkSchemaField "b" "string" false None "" ""])) /\
  Inspect (inspector "User") duplicateUserFile None <>
    Some (Some (mkSchemaType "User" [mkSchemaField "a" "integer" false None "" ""])).
Proof. by vm_compute. Qed.

(** C3, as the code has it.  For a taggable field whose schema value
    contains [minLength=], the minimum length of the entry is what
    [strconv.Atoi] makes of the text after the first [minLength=] up to the
    next comma: the member is rendered exactly when [Atoi] accepts that
    text, with the integer it returns, negative or not; when [Atoi] rejects
    the text there is no member and no error. *)
Theorem C3_minLength_is_Atoi (typeName : string) (field : Field) (schemaTag : string) :
  taggable field = true ->
  tagValue "schema" field = Some schemaTag ->
  Contains schemaTag "minLength=" = true ->
  exists entry : SchemaField,
    parseStruct typeName [field] = Some (mkSchemaType typeName [entry]) /\
    MinLength entry = Atoi (textUpTo "," (textAfter "minLength=" schemaTag)) /\
    tplMinLength entry =
      match Atoi (textUpTo "," (textAfter "minLength=" schemaTag)) with
      | Some val => "," +:+ LF +:+ lit "            'minLength': " +:+ formatInt val
      | None => ""
      end.
Proof.
  intros Htaggable Hschema Hcontains.
  unfold tagValue in Hschema.
  destruct (FieldTag field) as [tag|] eqn:Htag; [|discriminate].
  injection Hschema as <-.
  exists (entryOf tag (FieldType field)).
  rewrite parseStruct_entries. unfold entries. cbn [omap list_omap].
  rewrite Htaggable, Htag. split; [done|].
  unfold tplMinLength, entryOf. cbn [MinLength]. by rewrite Hcontains.
Qed.

(** C3 at [minLength=3], which gives the integer member 3, and at
    [minLength=abc], which gives no member. *)
Lemma C3_minLength_is_Atoi_witness :
  (exists entry : SchemaField,
     parseStruct "T" [minLength3] = Some (mkSchemaType "T" [entry]) /\
     MinLength entry = Some 3%Z /\
     tplMinLength entry = "," +:+ LF +:+ lit "            'minLength': 3") /\
  (exists entry : SchemaField,
     parseStruct "T" [minLengthAbc] = Some (mkSchemaType "T" [entry]) /\
     MinLength entry = None /\
     tplMinLength entry = "").
Proof.
  split.
  - apply (C3_minLength_is_Atoi "T" minLength3 "minLength=3"); by vm_compute.
  - apply (C3_minLength_is_Atoi "T" minLengthAbc "minLength=abc"); by vm_compute.
Defined.

(** C3 as stated fails at [minLength=-5]: the text [-5] is not a
    non-negative integer, and the member is rendered all the same, with
    the value -5. *)
Lemma C3_negative_minLength_is_rendered :
  tagValue "schema" minLengthNegative = Some "minLength=-5" /\
  textUpTo "," (textAfter "minLength=" "minLength=-5") = "-5" /\
  ~ (exists n : Z, (0 <= n)%Z /\ Atoi "-5" = Some n) /\
  parseStruct "T" [minLengthNegative] =
    Some (mkSchemaType "T" [mkSchemaField "s" "string" false (Some (-5)%Z) "" ""]) /\
  tplMinLength (mkSchemaField "s" "string" false (Some (-5)%Z) "" "") =
    "," +:+ LF +:+ lit "            'minLength': -5".
Proof.
  split; [by vm_compute|]. split; [by vm_compute|]. split; [|by vm_compute].
  intros (n & Hn & Hatoi). vm_compute in Hatoi.
  injection Hatoi as <-. lia.
Qed.

(** C6.  The schema type inferred from the declared type of a field:
    [string] gives string; [int], [int32] and [int64] give integer;
    [float32] and [float64] give number; [bool] gives boolean; every other
    type expression, an identifier or not, gives string. *)
Theorem C6_getFieldType_table :
  getFieldType (Ident "string") = "string" /\
  getFieldType (Ident "int") = "integer" /\
  getFieldType (Ident "int32") = "integer" /\
  getFieldType (Ident "int64") = "integer" /\
  getFieldType (Ident "float32") = "number" /\
  getFieldType (Ident "float64") = "number" /\
  getFieldType (Ident "bool") = "boolean" /\
  forall expr : Node,
    expr <> Ident "int" -> expr <> Ident "int32" -> expr <> Ident "int64" ->
    expr <> Ident "float32" -> expr <> Ident "float64" -> expr <> Ident "bool" ->
    getFieldType expr = "string".
Proof.
  repeat (split; [reflexivity|]).
  intros [name| | |] Hint Hint32 Hint64 Hfloat32 Hfloat64 Hbool; try reflexivity.
  unfold getFieldType.
  destruct (String.eqb name "string"); [reflexivity|].
  destruct (String.eqb_spec name "int") as [->|_]; [done|].
  destruct (String.eqb_spec name "int32") as [->|_]; [done|].
  destruct (String.eqb_spec name "int64") as [->|_]; [done|].
  destruct (String.eqb_spec name "float32") as [->|_]; [done|].
  destruct (String.eqb_spec name "float64") as [->|_]; [done|].
  destruct (String.eqb_spec name "bool") as [->|_]; done.
Qed.

(** The table of C6 at a slice, a map, a pointer, a nested structure, a
    qualified name and an unknown identifier. *)
Lemma C6_getFieldType_table_witness :
  getFieldType (ArrayType (Ident "string")) = "string" /\
  getFieldType (MapType (Ident "string") (Ident "int")) = "string" /\
  getFieldType (StarExpr (Ident "int")) = "string" /\
  getFieldType (StructType [mkField ["X"] (Ident "int") None]) = "string" /\
  getFieldType (SelectorExpr (Ident "time") "Time") = "string" /\
  getFieldType (Ident "uint8") = "string".
Proof.
  pose proof (proj2 (proj2 (proj2 (proj2 (proj2 (proj2 (proj2
                C6_getFieldType_table))))))) as Hother.
  repeat apply conj; apply Hother; discriminate.
Defined.

(** C7.  When no declaration of the file, at any depth, gives the requested
    name to a structure type, the run prints the diagnostic that names the
    type and the file, exits with status 1, and calls no write: the files
    are as they were. *)
Theorem C7_type_not_found (env : Env) (typeName inputFile : string) (rest : list string)
        (node : Node) (fs : gmap string string) :
  typeName <> "" ->
  ParseFile env inputFile = inr node ->
  declaresStruct typeName node = false ->
  run env typeName (inputFile :: rest) fs =
    (1%Z,
     mkOS [Stdout ("Type " +:+ typeName +:+ " not found in " +:+ inputFile +:+ LF)] fs).
Proof.
  intros Hname Hparse Hnone.
  rewrite (run_parsed _ _ _ _ _ _ Hname Hparse).
  by rewrite (declaresStruct_false _ _ Hnone).
Qed.

(** C7 on a file in which the requested name is a name for [int] only. *)
Lemma C7_type_not_found_witness :
  run (envOf aliasFile None) "User" ["alias.go"] ∅ =
    (1%Z, mkOS [Stdout ("Type User not found in alias.go" +:+ LF)] ∅).
Proof.
  apply (C7_type_not_found (envOf aliasFile None) "User" "alias.go" [] aliasFile ∅).
  - discriminate.
  - reflexivity.
  - reflexivity.
Defined.

(** C8.  A run that finds the structure and whose write succeeds prints
    the confirmation and writes the rendered document once, to the file
    named by the lower-cased type name followed by [.schema.json], with the
    mode 0644; afterwards the file holds exactly the document, whatever was
    there before.  For the type [User] the name is [user.schema.json], and
    the mode 0644 lets the owner read and write and the group and the
    others read. *)
Theorem C8_output_file :
  (forall (env : Env) (typeName inputFile : string) (rest : list string) (node : Node)
          (fields : list Field) (fs : gmap string string),
     typeName <> "" ->
     ParseFile env inputFile = inr node ->
     last (structDecls typeName node) = Some fields ->
     let name := ToLower (mapUnicodeLower env) typeName +:+ ".schema.json" in
     writeError env name = None ->
     exists schema : SchemaType,
       parseStruct typeName fields = Some schema /\
       run env typeName (inputFile :: rest) fs =
         (0%Z,
          mkOS [Stdout (confirmation name); WriteFile name (rendered schema) 420 None]
               (<[name := rendered schema]> fs)) /\
       files (snd (run env typeName (inputFile :: rest) fs)) !! name =
         Some (rendered schema)) /\
  (forall mapLower : string -> string, ToLower mapLower "User" +:+ ".schema.json" = "user.schema.json") /\
  420%Z = (6 * 64 + 4 * 8 + 4)%Z /\
  permissionBits 420 = [true; true; false; true; false; false; true; false; false].
Proof.
  split; [|by vm_compute].
  intros env typeName inputFile rest node fields fs Hname Hparse Hlast name Hwrite.
  exists (mkSchemaType typeName (entries fields)).
  split; [apply parseStruct_entries|].
  rewrite (run_parsed _ _ _ _ _ _ Hname Hparse), Hlast. cbn zeta.
  fold (outputFileOf env typeName) in name, Hwrite |- *. fold name.
  rewrite Hwrite. split; [done|]. cbn [snd files]. apply lookup_insert_eq.
Qed.

(** C8 on [user.go], in a directory where [user.schema.json] exists
    already. *)
Lemma C8_output_file_witness :
  exists schema : SchemaType,
    parseStruct "User" userGo = Some schema /\
    run (envOf userGoFile None) "User" ["user.go"] {["user.schema.json" := "old"]} =
      (0%Z,
       mkOS [Stdout (confirmation "user.schema.json");
             WriteFile "user.schema.json" (rendered schema) 420 None]
            (<["user.schema.json" := rendered schema]> {["user.schema.json" := "old"]})) /\
    files (snd (run (envOf userGoFile None) "User" ["user.go"]
                    {["user.schema.json" := "old"]})) !! "user.schema.json" =
      Some (rendered schema).
Proof.
  apply (proj1 C8_output_file (envOf userGoFile None) "User" "user.go" [] userGoFile
               userGo {["user.schema.json" := "old"]}).
  - discriminate.
  - reflexivity.
  - reflexivity.
  - reflexivity.
Defined.



(** C10.  [generateSchemaFile] prints the confirmation, with the name of the
    output file, before it calls the write: in a run that finds the
    structure and whose write fails, the confirmation is printed first, then
    the write is attempted and fails, then the error is reported, and the
    run exits with status 1. *)
Theorem C10_confirmation_before_write (env : Env) (typeName inputFile : string)
        (rest : list string) (node : Node) (fields : list Field)
        (fs : gmap string string) (err : string) :
  typeName <> "" ->
  ParseFile env inputFile = inr node ->
  last (structDecls typeName node) = Some fields ->
  writeError env (outputFileOf env typeName) = Some err ->
  exists schema : SchemaType,
    parseStruct typeName fields = Some schema /\
    generateSchemaFile env schema (mkOS [] fs) =
      (Returned (Some err),
       mkOS [Stdout (confirmation (outputFileOf env typeName));
             WriteFile (outputFileOf env typeName) (rendered schema) 420 (Some err)] fs) /\
    run env typeName (inputFile :: rest) fs =
      (1%Z,
       mkOS [Stdout (confirmation (outputFileOf env typeName));
             WriteFile (outputFileOf env typeName) (rendered schema) 420 (Some err);
             Stdout ("Error generating schema: " +:+ err +:+ LF)] fs).
Proof.
  intros Hname Hparse Hlast Hwrite.
  exists (mkSchemaType typeName (entries fields)).
  split; [apply parseStruct_entries|]. split.
  - rewrite generateSchemaFile_run. cbn [TypeName trace files app]. by rewrite Hwrite.
  - rewrite (run_parsed _ _ _ _ _ _ Hname Hparse), Hlast. cbn zeta. by rewrite Hwrite.
Qed.

(** C10 on [user.go], in a directory that cannot be written. *)
Lemma C10_confirmation_before_write_witness :
  exists schema : SchemaType,
    parseStruct "User" userGo = Some schema /\
    generateSchemaFile (envOf userGoFile (Some "permission denied")) schema (mkOS [] ∅) =
      (Returned (Some "permission denied"),
       mkOS [Stdout (confirmation "user.schema.json");
             WriteFile "user.schema.json" (rendered schema) 420 (Some "permission denied")] ∅) /\
    run (envOf userGoFile (Some "permission denied")) "User" ["user.go"] ∅ =
      (1%Z,
       mkOS [Stdout (confirmation "user.schema.json");
             WriteFile "user.schema.json" (rendered schema) 420 (Some "permission denied");
             Stdout ("Error generating schema: permission denied" +:+ LF)] ∅).
Proof.
  apply (C10_confirmation_before_write (envOf userGoFile (Some "permission denied"))
           "User" "user.go" [] userGoFile userGo ∅ "permission denied").
  - discriminate.
  - reflexivity.
  - reflexivity.
  - reflexivity.
Defined.

(* ===================================================================== *)
(** ** Further lemmas on strings *)
(* ===================================================================== *)

Lemma append_String (c : ascii) (s t : string) :
  String c s +:+ t = String c (s +:+ t).
Proof. reflexivity. Qed.

Lemma append_empty_l (s : string) : "" +:+ s = s.
Proof. reflexivity. Qed.

Lemma append_assoc (s t u : string) : (s +:+ t) +:+ u = s +:+ (t +:+ u).
Proof.
  induction s as [|c s IH]; [done|]. rewrite !append_String. by f_equal.
Qed.

Lemma length_append (s t : string) :
  String.length (s +:+ t) = String.length s + String.length t.
Proof.
  induction s as [|c s IH]; [done|]. rewrite append_String. simpl. by rewrite IH.
Qed.

Lemma HasPrefix_append (sub post : string) : HasPrefix (sub +:+ post) sub = true.
Proof.
  induction sub as [|c sub IH]; [by destruct post|]. rewrite append_String. cbn.
  by rewrite Ascii.eqb_refl, IH.
Qed.

(** [strings.Contains] is the occurrence of the substring. *)
Lemma Contains_occurs (s sub : string) :
  Contains s sub = true <-> exists pre post, s = pre +:+ sub +:+ post.
Proof.
  split.
  - intros H. eexists _, _. by apply textUpTo_textAfter.
  - intros (pre & post & ->). unfold Contains.
    induction pre as [|c pre IH]; rewrite Index_unfold.
    + by rewrite append_empty_l, HasPrefix_append.
    + destruct (HasPrefix _ sub); [done|]. rewrite append_String.
      by destruct (Index (pre +:+ sub +:+ post) sub).
Qed.

Lemma HasPrefix_single (c : ascii) (s : string) :
  HasPrefix s (String c "") =
    match s with String d _ => Ascii.eqb d c | "" => false end.
Proof. destruct s as [|d s]; [done|]. cbn. destruct s; apply andb_true_r. Qed.

Lemma noByte_append (c : ascii) (s t : string) :
  noByte c (s +:+ t) = noByte c s && noByte c t.
Proof.
  induction s as [|d s IH]; [done|]. rewrite append_String. cbn.
  by rewrite IH, andb_assoc.
Qed.

Lemma countByte_append (c : ascii) (s t : string) :
  countByte c (s +:+ t) = countByte c s + countByte c t.
Proof.
  induction s as [|d s IH]; [done|]. rewrite append_String. cbn.
  rewrite IH. lia.
Qed.

Lemma noByte_countByte (c : ascii) (s : string) :
  noByte c s = true <-> countByte c s = 0.
Proof.
  induction s as [|d s IH]; [done|]. cbn.
  destruct (Ascii.eqb d c); cbn; [split; [done|lia]|exact IH].
Qed.

Lemma Index_single_None (c : ascii) (s : string) :
  Index s (String c "") = None <-> noByte c s = true.
Proof.
  induction s as [|d s IH]; [done|].
  rewrite Index_unfold, HasPrefix_single. cbn [noByte].
  destruct (Ascii.eqb d c); cbn; [split; discriminate|].
  rewrite <- IH. destruct (Index s (String c "")); cbn; split; try done.
Qed.

(** Around the first occurrence of a byte. *)
Lemma textUpTo_single (c : ascii) (t rest : string) :
  noByte c t = true -> textUpTo (String c "") (t +:+ String c rest) = t.
Proof.
  induction t as [|d t IH]; intros Ht.
  - rewrite append_empty_l, textUpTo_unfold, HasPrefix_single.
    by rewrite Ascii.eqb_refl.
  - cbn in Ht. apply andb_true_iff in Ht as [Hd Ht].
    rewrite append_String, textUpTo_unfold, HasPrefix_single.
    apply negb_true_iff in Hd. rewrite Hd. by rewrite IH.
Qed.

Lemma textAfter_single (c : ascii) (t rest : string) :
  noByte c t = true -> textAfter (String c "") (t +:+ String c rest) = rest.
Proof.
  induction t as [|d t IH]; intros Ht.
  - rewrite append_empty_l, textAfter_unfold, HasPrefix_single.
    by rewrite Ascii.eqb_refl.
  - cbn in Ht. apply andb_true_iff in Ht as [Hd Ht].
    rewrite append_String, textAfter_unfold, HasPrefix_single.
    apply negb_true_iff in Hd. rewrite Hd. by rewrite IH.
Qed.

Lemma Contains_single (c : ascii) (t rest : string) :
  Contains (t +:+ String c rest) (String c "") = true.
Proof. apply Contains_occurs. by exists t, rest. Qed.

Lemma countByte_textAfter (c : ascii) (s : string) :
  Contains s (String c "") = true ->
  countByte c s = S (countByte c (textAfter (String c "") s)).
Proof.
  intros (pre & post & Hs)%Contains_occurs.
  assert (Hsplit := textUpTo_textAfter (String c "") s).
  rewrite Hsplit at 1 by (apply Contains_occurs; eauto).
  rewrite !countByte_append. cbn.
  assert (countByte c (textUpTo (String c "") s) = 0) as ->; [|by rewrite Ascii.eqb_refl].
  clear. induction s as [|d s IH]; [done|].
  rewrite textUpTo_unfold, HasPrefix_single.
  destruct (Ascii.eqb d c) eqn:Hd; [done|]. cbn. by rewrite Hd, IH.
Qed.

Lemma splitLoop_unfold_found (n : nat) (s sep : string) :
  Contains s sep = true ->
  splitLoop (S n) s sep = textUpTo sep s :: splitLoop n (textAfter sep s) sep.
Proof.
  intros [i Hi]%Contains_Index. cbn. rewrite Hi.
  by destruct (Index_Some_slices _ _ _ Hi) as (-> & -> & _).
Qed.

Lemma Contains_false_Index (s sep : string) :
  Contains s sep = false -> Index s sep = None.
Proof. unfold Contains. by destruct (Index s sep). Qed.

Lemma textAfter_length (sep s : string) :
  sep <> "" -> Contains s sep = true ->
  String.length (textAfter sep s) < String.length s.
Proof.
  intros Hsep [i Hi]%Contains_Index.
  destruct (Index_Some_slices _ _ _ Hi) as (_ & <- & Hlen).
  rewrite sliceFrom_length. destruct sep; [done|]. simpl in *. lia.
Qed.

(** [Split] on a single byte gives one part more than the byte occurs. *)
Lemma Split_single_length (c : ascii) (s : string) :
  length (Split s (String c "")) = S (countByte c s).
Proof.
  rewrite (Split_unbounded s _ (String.length s)) by done.
  generalize (Nat.le_refl (String.length s)).
  generalize (String.length s) at 2 3 as n.
  intros n; revert s; induction n as [|n IH]; intros s Hn.
  - destruct s; [done|simpl in Hn; lia].
  - destruct (Contains s (String c "")) eqn:Hc.
    + rewrite splitLoop_unfold_found by done. cbn [length].
      rewrite (countByte_textAfter _ _ Hc). f_equal. apply IH.
      pose proof (textAfter_length (String c "") s ltac:(done) Hc). lia.
    + apply Contains_false_Index in Hc. cbn. rewrite Hc. cbn.
      apply Index_single_None, noByte_countByte in Hc. by rewrite Hc.
Qed.

(** [Split] takes apart what a single byte joins. *)
Lemma Split_single_join (c : ascii) (t : string) (ts : list string) :
  noByte c t = true -> Forall (fun x => noByte c x = true) ts ->
  Split (String.concat (String c "") (t :: ts)) (String c "") = t :: ts.
Proof.
  intros Ht Hts.
  rewrite (Split_unbounded _ _ (String.length (String.concat (String c "") (t :: ts))))
    by done.
  generalize (Nat.le_refl (String.length (String.concat (String c "") (t :: ts)))).
  generalize (String.length (String.concat (String c "") (t :: ts))) at 2 3 as n.
  intros n; revert t Ht n.
  induction Hts as [|t2 ts Ht2 Hts IH]; intros t Ht n Hn.
  - cbn [String.concat]. apply Index_single_None in Ht.
    destruct n; cbn; by rewrite ?Ht.
  - change (String.concat (String c "") (t :: t2 :: ts))
      with (t +:+ String c "" +:+ String.concat (String c "") (t2 :: ts)) in *.
    rewrite append_String, append_empty_l in *.
    rewrite length_append in Hn. cbn [String.length] in Hn.
    destruct n as [|n]; [lia|].
    rewrite splitLoop_unfold_found by apply Contains_single.
    rewrite textUpTo_single, textAfter_single by done.
    f_equal. apply IH; [done|lia].
Qed.

(** [strings.Trim] with a single byte as cutset. *)
Lemma TrimRight_noByte (q : ascii) (s : string) :
  noByte q s = true -> TrimRight s (String q "") = s.
Proof.
  induction s as [|c s IH]; [done|]. cbn [noByte TrimRight].
  intros [Hc Hs]%andb_true_iff. rewrite (IH Hs).
  destruct s; [|done]. cbn. apply negb_true_iff in Hc. by rewrite Hc.
Qed.

Lemma TrimRight_snoc (q : ascii) (s : string) :
  TrimRight (s +:+ String q "") (String q "") = TrimRight s (String q "").
Proof.
  induction s as [|c s IH].
  - rewrite append_empty_l. cbn. by rewrite Ascii.eqb_refl.
  - rewrite append_String. cbn [TrimRight]. by rewrite IH.
Qed.

Lemma TrimLeft_noByte (q : ascii) (s : string) :
  noByte q s = true -> TrimLeft s (String q "") = s.
Proof.
  destruct s as [|c s]; [done|]. cbn.
  intros [Hc _]%andb_true_iff. apply negb_true_iff in Hc. by rewrite Hc.
Qed.

Lemma Trim_wrapped (q : ascii) (s : string) :
  noByte q s = true -> Trim (String q (s +:+ String q "")) (String q "") = s.
Proof.
  intros Hs. unfold Trim.
  change (String q (s +:+ String q "")) with (String q s +:+ String q "").
  rewrite TrimRight_snoc. cbn [TrimRight]. rewrite (TrimRight_noByte _ _ Hs).
  destruct s as [|c s].
  - cbn. by rewrite Ascii.eqb_refl.
  - cbn [TrimLeft inCutset]. rewrite Ascii.eqb_refl. cbn [orb].
    cbn in Hs. apply andb_true_iff in Hs as [Hc _].
    apply negb_true_iff in Hc. by rewrite Hc.
Qed.

Lemma noByte_concat (c sepc : ascii) (tokens : list string) :
  Ascii.eqb sepc c = false ->
  Forall (fun t => noByte c t = true) tokens ->
  noByte c (String.concat (String sepc "") tokens) = true.
Proof.
  intros Hsep. induction 1 as [|t ts Ht Hts IH]; [done|].
  destruct ts as [|t2 ts]; [done|].
  change (String.concat (String sepc "") (t :: t2 :: ts))
    with (t +:+ String sepc "" +:+ String.concat (String sepc "") (t2 :: ts)).
  rewrite !noByte_append, Ht, IH. cbn. by rewrite Hsep.
Qed.

(** ** Lemmas on [parseFieldTags] *)

(** The round of the loop of [parseFieldTags] on one token. *)
Lemma parseFieldTags_round (tags : gmap string string) (token : string) :
  match Split token ":" with
  | [key; value] => <[key := Trim value (String quote "")]> tags
  | _ => tags
  end = tagStep tags token.
Proof.
  unfold tagStep.
  pose proof (Split_single_length colon token) as Hlen.
  change (String colon "") with ":" in Hlen.
  pose proof (Split_head token ":" ltac:(done)) as Hhead.
  destruct (Nat.eqb_spec (countByte colon token) 1) as [Hone|Hne].
  - assert (Hc : Contains token ":" = true).
    { destruct (Contains token ":") eqn:Hc; [done|].
      apply Contains_false_Index, (Index_single_None colon), noByte_countByte in Hc.
      unfold colon in *. lia. }
    pose proof (Split_second token ":" ltac:(done) Hc) as Hsecond.
    assert (Hrest : textUpTo ":" (textAfter ":" token) = textAfter ":" token).
    { apply Index_None_textUpTo, (Index_single_None colon), noByte_countByte.
      pose proof (countByte_textAfter colon token Hc). unfold colon in *. lia. }
    rewrite Hrest in Hsecond. rewrite Hone in Hlen.
    destruct (Split token ":") as [|a [|b [|? ?]]]; try discriminate.
    cbn in Hhead, Hsecond. by injection Hhead as ->; injection Hsecond as ->.
  - destruct (Split token ":") as [|a [|b [|? ?]]]; try done.
    cbn in Hlen. lia.
Qed.

Lemma fold_left_tagStep (tokens : list string) (tags : gmap string string) :
  fold_left
    (fun (tags : gmap string string) (t : string) =>
       match Split t ":" with
       | [key; value] => <[key := Trim value (String quote "")]> tags
       | _ => tags
       end) tokens tags = fold_left tagStep tokens tags.
Proof.
  revert tags; induction tokens as [|t tokens IH]; intros tags; [done|].
  cbn [fold_left]. by rewrite parseFieldTags_round, IH.
Qed.

Lemma parseFieldTags_tagLiteral (tokens : list string) :
  Forall (fun t => noByte space t = true /\ noByte backtick t = true) tokens ->
  parseFieldTags (tagLiteral tokens) = fold_left tagStep tokens ∅.
Proof.
  intros Htokens. unfold parseFieldTags, tagLiteral.
  assert (Hbody : noByte backtick (String.concat " " tokens) = true).
  { apply noByte_concat; [done|]. eapply Forall_impl; [exact Htokens|]. by intros ? [_ ?]. }
  change ("`" +:+ String.concat " " tokens +:+ "`")
    with (String backtick (String.concat " " tokens +:+ String backtick "")).
  change "`" with (String backtick "").
  rewrite (Trim_wrapped _ _ Hbody), fold_left_tagStep.
  destruct Htokens as [|t ts [Ht _] Hts]; [done|].
  change " " with (String space ""). rewrite Split_single_join; [done|done|].
  eapply Forall_impl; [exact Hts|]. by intros ? [? _].
Qed.

Lemma tagStep_tagToken (tags : gmap string string) (key value : string) :
  plain key = true -> plain value = true ->
  tagStep tags (tagToken (key, value)) = <[key := value]> tags.
Proof.
  unfold plain. intros Hk Hv.
  repeat (apply andb_true_iff in Hk as [Hk ?]). repeat (apply andb_true_iff in Hv as [Hv ?]).
  unfold tagStep, tagToken. cbn [fst snd].
  change ":" with (String colon "").
  change (String colon "" +:+ ?x) with (String colon x).
  rewrite textUpTo_single, textAfter_single by done.
  rewrite Trim_wrapped by done.
  rewrite countByte_append. cbn [countByte]. rewrite countByte_append. cbn.
  assert (countByte colon key = 0) as -> by by apply noByte_countByte.
  assert (countByte colon value = 0) as -> by by apply noByte_countByte.
  done.
Qed.

Lemma tagToken_noByte (key value : string) :
  plain key = true -> plain value = true ->
  noByte space (tagToken (key, value)) = true /\
  noByte backtick (tagToken (key, value)) = true.
Proof.
  unfold plain. intros Hk Hv.
  repeat (apply andb_true_iff in Hk as [Hk ?]). repeat (apply andb_true_iff in Hv as [Hv ?]).
  unfold tagToken. cbn [fst snd].
  change (":" +:+ ?x) with (String colon x).
  rewrite !noByte_append. cbn [noByte]. rewrite !noByte_append. cbn [noByte].
  split; repeat (apply andb_true_iff; split); done.
Qed.

Lemma fold_left_insert_lookup (pairs : list (string * string)) (key : string) :
  fold_left (fun (m : gmap string string) pair => <[fst pair := snd pair]> m) pairs ∅ !! key =
    lastValue key pairs.
Proof.
  unfold lastValue.
  induction pairs as [|[k v] pairs IH] using rev_ind; [done|].
  rewrite fold_left_app, List.filter_app. cbn [fold_left List.filter fst snd].
  destruct (String.eqb_spec k key) as [->|Hne].
  - rewrite lookup_insert_eq. by rewrite last_snoc.
  - rewrite lookup_insert_ne by done. by rewrite app_nil_r.
Qed.

(* ===================================================================== *)
(** ** Further lemmas on the walk and on a run *)
(* ===================================================================== *)

Lemma flat_map_nil {A B} (g : A -> list B) (l : list A) :
  flat_map g l = [] <-> Forall (fun x => g x = []) l.
Proof.
  induction l as [|x l IH]; cbn; [by split|].
  split.
  - intros [Hx Hl]%app_eq_nil. constructor; [done|by apply IH].
  - intros H. inversion H as [|? ? Hx Hl]; subst. rewrite Hx. by apply IH.
Qed.

(** The walk reaches a declaration of the name as a structure as soon as
    there is one at any depth. *)
Lemma structDecls_nil typeName (n : Node) :
  structDecls typeName n = [] -> declaresStruct typeName n = false.
Proof.
  induction n as [name|name tparams type IHt IH|fields IHf|kind children IHc
                 |names type tag IH] using Node_induction
    with (Q := fun fld => structDecls typeName (FieldType fld) = [] ->
                          declaresStruct typeName (FieldType fld) = false).
  - done.
  - cbn [declaresStruct structDecls]. intros Hnil.
    assert (Hrest : flat_map (structDecls typeName) tparams ++ structDecls typeName type = []
                    -> existsb (declaresStruct typeName) tparams = false /\
                       declaresStruct typeName type = false).
    { intros [Htp Hty]%app_eq_nil. split; [|by apply IH].
      clear -IHt Htp. apply flat_map_nil in Htp.
      induction IHt as [|x l Hx _ IHl]; [done|].
      inversion Htp; subst. cbn. rewrite Hx by done. by apply IHl. }
    destruct (String.eqb name typeName); cbn [andb orb].
    + destruct type; try discriminate; destruct (Hrest Hnil) as [-> ->]; done.
    + by destruct (Hrest Hnil) as [-> ->].
  - cbn [declaresStruct structDecls]. intros Hnil.
    induction IHf as [|[names type tag] l Hx _ IHl]; [done|]. cbn in *.
    apply app_eq_nil in Hnil as [H1 H2]. by rewrite (Hx H1), (IHl H2).
  - cbn [declaresStruct structDecls]. intros Hnil.
    induction IHc as [|x l Hx _ IHl]; [done|]. cbn in *.
    apply app_eq_nil in Hnil as [H1 H2]. by rewrite (Hx H1), (IHl H2).
  - exact IH.
Qed.

Lemma last_None {A} (l : list A) : last l = None <-> l = [].
Proof.
  destruct l as [|x l] using rev_ind; [done|].
  rewrite last_snoc. split; [done|]. by intros [_ ?]%app_eq_nil.
Qed.

Lemma declaresStruct_last typeName (n : Node) :
  declaresStruct typeName n = true <-> is_Some (last (structDecls typeName n)).
Proof.
  split.
  - intros Hd. destruct (last (structDecls typeName n)) eqn:Hl; [by eexists|].
    apply last_None, structDecls_nil in Hl. congruence.
  - intros [fields Hl]. destruct (declaresStruct typeName n) eqn:Hd; [done|].
    apply declaresStruct_false in Hd. by rewrite Hd in Hl.
Qed.

(** Every way a run can go. *)
Lemma run_cases env typeName args fs :
  run env typeName args fs =
    if String.eqb typeName "" then
      (1%Z, mkOS [Stdout ("Please specify type name using -type flag" +:+ LF)] fs)
    else
      match args with
      | [] => (1%Z, mkOS [Stdout ("Please specify an input file" +:+ LF)] fs)
      | inputFile :: _ =>
          match ParseFile env inputFile with
          | inl err => (1%Z, mkOS [Stdout ("Error parsing file: " +:+ err +:+ LF)] fs)
          | inr node =>
              match last (structDecls typeName node) with
              | None =>
                  (1%Z,
                   mkOS [Stdout ("Type " +:+ typeName +:+ " not found in " +:+
                                 inputFile +:+ LF)] fs)
              | Some fields =>
                  let schema := mkSchemaType typeName (entries fields) in
                  let name := outputFileOf env typeName in
                  match writeError env name with
                  | None =>
                      (0%Z,
                       mkOS [Stdout (confirmation name);
                             WriteFile name (rendered schema) 420 None]
                            (<[name := rendered schema]> fs))
                  | Some err =>
                      (1%Z,
                       mkOS [Stdout (confirmation name);
                             WriteFile name (rendered schema) 420 (Some err);
                             Stdout ("Error generating schema: " +:+ err +:+ LF)] fs)
                  end
              end
          end
      end.
Proof.
  destruct (String.eqb_spec typeName "") as [->|Hname]; [done|].
  destruct args as [|inputFile rest].
  { unfold run, main. apply String.eqb_neq in Hname. by rewrite Hname. }
  destruct (ParseFile env inputFile) as [err|node] eqn:Hparse.
  { unfold run, main. apply String.eqb_neq in Hname. rewrite Hname.
    unfold mbind at 1 2. unfold M_bind, bind, mret, M_ret, ret. cbn beta iota.
    by rewrite Hparse. }
  by apply run_parsed.
Qed.

(* ===================================================================== *)
(** ** Further properties: the runs of [main] *)
(* ===================================================================== *)

(** The status of the part of [main] that follows [flag.Parse]. *)
Lemma run_status (env : Env) (typeName : string) (args : list string)
      (fs : gmap string string) :
  (fst (run env typeName args fs) = 0%Z \/ fst (run env typeName args fs) = 1%Z) /\
  (fst (run env typeName args fs) = 0%Z <->
     typeName <> "" /\
     exists (inputFile : string) (rest : list string) (node : Node),
       args = inputFile :: rest /\
       ParseFile env inputFile = inr node /\
       declaresStruct typeName node = true /\
       writeError env (outputFileOf env typeName) = None).
Proof.
  rewrite run_cases.
  destruct (String.eqb_spec typeName "") as [->|Hname].
  { split; [by right|]. split; [done|]. by intros [? _]. }
  destruct args as [|inputFile rest].
  { split; [by right|]. split; [done|]. by intros [_ (? & ? & ? & ? & _)]. }
  destruct (ParseFile env inputFile) as [err|node] eqn:Hparse.
  { split; [by right|]. split; [done|].
    intros [_ (? & ? & ? & [= <- <-] & ? & _)]. congruence. }
  pose proof (declaresStruct_last typeName node) as Hlast.
  destruct (last (structDecls typeName node)) as [fields|].
  - cbn zeta. destruct (writeError env (outputFileOf env typeName)) as [err|] eqn:Hw.
    + split; [by right|]. split; [done|].
      intros [_ (? & ? & ? & _ & _ & _ & ?)]. congruence.
    + split; [by left|]. split; [|done]. intros _. split; [done|].
      exists inputFile, rest, node. repeat split; try done. apply Hlast. by eexists.
  - split; [by right|]. split; [done|].
    intros [_ (? & ? & ? & [= <- <-] & Hp & Hd & _)].
    assert (node = x1) as <- by congruence.
    apply Hlast in Hd. by destruct Hd.
Qed.

(** X2.  The three checks before the walk, in their order: without a type
    name the run asks for it, whatever the arguments; with a type name and
    no argument it asks for an input file; with both, a file that does not
    parse is reported with the error of the parser.  Each time the run
    prints this one line, exits with status 1 and leaves the files as they
    are. *)
Theorem X2_checks_before_the_walk :
  (forall (env : Env) (args : list string) (fs : gmap string string),
     run env "" args fs =
       (1%Z, mkOS [Stdout ("Please specify type name using -type flag" +:+ LF)] fs)) /\
  (forall (env : Env) (typeName : string) (fs : gmap string string),
     typeName <> "" ->
     run env typeName [] fs =
       (1%Z, mkOS [Stdout ("Please specify an input file" +:+ LF)] fs)) /\
  (forall (env : Env) (typeName inputFile err : string) (rest : list string)
          (fs : gmap string string),
     typeName <> "" ->
     ParseFile env inputFile = inl err ->
     run env typeName (inputFile :: rest) fs =
       (1%Z, mkOS [Stdout ("Error parsing file: " +:+ err +:+ LF)] fs)).
Proof.
  split; [|split].
  - intros env args fs. by rewrite run_cases.
  - intros env typeName fs Hname%String.eqb_neq. by rewrite run_cases, Hname.
  - intros env typeName inputFile err rest fs Hname%String.eqb_neq Hparse.
    by rewrite run_cases, Hname, Hparse.
Qed.

(** X2 on runs without arguments and on a file that does not parse. *)
Lemma X2_checks_before_the_walk_witness :
  run (envOf userGoFile None) "" [] ∅ =
    (1%Z, mkOS [Stdout ("Please specify type name using -type flag" +:+ LF)] ∅) /\
  run (envOf userGoFile None) "User" [] ∅ =
    (1%Z, mkOS [Stdout ("Please specify an input file" +:+ LF)] ∅) /\
  run envParseError "User" ["user.go"] ∅ =
    (1%Z, mkOS [Stdout ("Error parsing file: user.go:1:1: expected 'package', found 'EOF'"
                        +:+ LF)] ∅).
Proof.
  destruct X2_checks_before_the_walk as (Htype & Hfile & Hparse).
  split; [apply Htype|]. split.
  - apply Hfile. discriminate.
  - apply (Hparse envParseError "User" "user.go"); [discriminate|reflexivity].
Defined.

(** X3.  Whatever a run does, it changes no file other than the output
    file of the requested type. *)
Theorem X3_other_files_untouched (env : Env) (typeName : string) (args : list string)
        (fs : gmap string string) (path : string) :
  path <> outputFileOf env typeName ->
  filesAfter env typeName args fs !! path = fs !! path.
Proof.
  intros Hpath. unfold filesAfter. rewrite run_cases.
  destruct (String.eqb typeName ""); [done|].
  destruct args as [|inputFile rest]; [done|].
  destruct (ParseFile env inputFile) as [err|node]; [done|].
  destruct (last (structDecls typeName node)) as [fields|]; [|done].
  cbn zeta. destruct (writeError env (outputFileOf env typeName)); [done|].
  cbn [snd files]. by rewrite lookup_insert_ne.
Qed.

(** X3 on [user.go] next to a file of another type. *)
Lemma X3_other_files_untouched_witness :
  filesAfter (envOf userGoFile None) "User" ["user.go"]
             {["order.schema.json" := "kept"]} !! "order.schema.json" =
    ({["order.schema.json" := "kept"]} : gmap string string) !! "order.schema.json".
Proof.
  apply (X3_other_files_untouched (envOf userGoFile None) "User" ["user.go"]).
  discriminate.
Defined.

(** The events of the part of [main] that follows [flag.Parse]. *)
Lemma run_events (env : Env) (typeName : string) (args : list string)
      (fs : gmap string string) :
  let name := outputFileOf env typeName in
  let result := run env typeName args fs in
  (exists diagnostic : string,
     result = (1%Z, mkOS [Stdout diagnostic] fs)) \/
  (exists data : string,
     result = (0%Z, mkOS [Stdout (confirmation name); WriteFile name data 420 None]
                         (<[name := data]> fs))) \/
  (exists data err : string,
     fst result = 1%Z /\
     trace (snd result) =
       [Stdout (confirmation name); WriteFile name data 420 (Some err);
        Stdout ("Error generating schema: " +:+ err +:+ LF)]).
Proof.
  cbn zeta. rewrite run_cases.
  destruct (String.eqb typeName ""); [left; by eexists|].
  destruct args as [|inputFile rest]; [left; by eexists|].
  destruct (ParseFile env inputFile) as [err|node]; [left; by eexists|].
  destruct (last (structDecls typeName node)) as [fields|]; [|left; by eexists].
  cbn zeta. destruct (writeError env (outputFileOf env typeName)) as [err|].
  - right; right. by eexists _, _.
  - right; left. by eexists.
Qed.

(* ===================================================================== *)
(** ** Further properties: [parseStruct] and [parseFieldTags] *)
(* ===================================================================== *)

Lemma getFieldType_schemaTypes (expr : Node) : In (getFieldType expr) schemaTypes.
Proof.
  destruct expr as [name| | |]; cbn; auto.
  repeat match goal with |- context [if ?b then _ else _] => destruct b end;
    cbn; auto.
Qed.

Lemma noByte_textUpTo (c : ascii) (s : string) :
  noByte c (textUpTo (String c "") s) = true.
Proof.
  induction s as [|d s IH]; [done|].
  rewrite textUpTo_unfold, HasPrefix_single.
  destruct (Ascii.eqb d c) eqn:Hd; [done|]. cbn. by rewrite Hd, IH.
Qed.

(** Every entry of a schema comes from a field with a tag whose [json]
    value is not the skip marker. *)
Lemma entries_Forall (fields : list Field) :
  Forall (fun entry =>
            exists tag type, entry = entryOf tag type /\
                             String.eqb (mapGet (parseFieldTags tag) "json") "-" = false)
         (entries fields).
Proof.
  induction fields as [|field fields IH]; [constructor|].
  unfold entries in *. cbn [omap list_omap].
  unfold taggable, tagValue.
  destruct (FieldTag field) as [tag|]; cbn -[mapGet parseFieldTags entryOf]; [|exact IH].
  destruct (String.eqb (mapGet (parseFieldTags tag) "json") "-") eqn:Hj;
    cbn -[mapGet parseFieldTags entryOf]; [exact IH|].
  constructor; [by eexists _, _|exact IH].
Qed.

Lemma entries_length (fields : list Field) : length (entries fields) <= length fields.
Proof.
  induction fields as [|field fields IH]; [done|].
  unfold entries in *. cbn [omap list_omap length].
  destruct (taggable field); [|lia].
  destruct (FieldTag field); cbn; lia.
Qed.

Lemma entries_taggable_single (field : Field) (tag : string) :
  FieldTag field = Some tag -> taggable field = true ->
  entries [field] = [entryOf tag (FieldType field)].
Proof.
  intros Htag Ht. unfold entries. cbn [omap list_omap]. by rewrite Ht, Htag.
Qed.

(** X6.  [parseStruct] treats each field on its own: the schema of two
    field lists put one after the other has the entries of the first
    followed by the entries of the second, and the entries do not depend on
    the name of the type. *)
Theorem X6_parseStruct_append (typeName otherName : string) (fields1 fields2 : list Field) :
  exists entries1 entries2 : list SchemaField,
    parseStruct typeName fields1 = Some (mkSchemaType typeName entries1) /\
    parseStruct typeName fields2 = Some (mkSchemaType typeName entries2) /\
    parseStruct typeName (fields1 ++ fields2) =
      Some (mkSchemaType typeName (entries1 ++ entries2)) /\
    parseStruct otherName (fields1 ++ fields2) =
      Some (mkSchemaType otherName (entries1 ++ entries2)).
Proof.
  exists (entries fields1), (entries fields2).
  by rewrite !parseStruct_entries, entries_app.
Qed.

(** X7.  What holds of every schema that [parseStruct] returns: its title
    is the type name as given; it has at most one entry per field; the type
    of every entry is one of string, integer, number and boolean; no entry
    is named by the skip marker; no entry has a description, so that the
    description member is never rendered. *)
Theorem X7_schema_invariants (typeName : string) (fields : list Field) :
  exists schema : SchemaType,
    parseStruct typeName fields = Some schema /\
    TypeName schema = typeName /\
    length (Fields schema) <= length fields /\
    Forall (fun entry =>
              In (Type_ entry) schemaTypes /\
              Name entry <> "-" /\
              Description entry = "" /\
              tplDescription entry = "")
           (Fields schema).
Proof.
  exists (mkSchemaType typeName (entries fields)).
  split; [apply parseStruct_entries|]. split; [done|].
  split; [apply entries_length|]. cbn [Fields].
  eapply Forall_impl; [apply entries_Forall|].
  intros entry (tag & type & -> & Hjson). unfold entryOf.
  cbn [Type_ Name Description tplDescription].
  split; [apply getFieldType_schemaTypes|].
  by apply String.eqb_neq in Hjson.
Qed.

(** X8.  The required flag is a test for a substring: an entry is required
    exactly when the text [required] occurs somewhere in the schema value
    of its field, be it inside a longer word, and the required member is
    rendered exactly then. *)
Theorem X8_required_is_a_substring (typeName : string) (field : Field) (schemaTag : string) :
  taggable field = true ->
  tagValue "schema" field = Some schemaTag ->
  exists entry : SchemaField,
    parseStruct typeName [field] = Some (mkSchemaType typeName [entry]) /\
    (Required entry = true <-> exists pre post, schemaTag = pre +:+ "required" +:+ post) /\
    (tplRequired entry <> "" <-> exists pre post, schemaTag = pre +:+ "required" +:+ post).
Proof.
  intros Htaggable Hschema. unfold tagValue in Hschema.
  destruct (FieldTag field) as [tag|] eqn:Htag; [|discriminate].
  injection Hschema as <-.
  exists (entryOf tag (FieldType field)).
  rewrite parseStruct_entries, (entries_taggable_single _ _ Htag Htaggable).
  split; [done|]. unfold tplRequired, entryOf. cbn [Required].
  rewrite <- Contains_occurs.
  split; [done|]. by destruct (Contains _ "required").
Qed.

(** X8 at [notrequired]. *)
Lemma X8_required_is_a_substring_witness :
  exists entry : SchemaField,
    parseStruct "T" [notRequiredField] = Some (mkSchemaType "T" [entry]) /\
    (Required entry = true <-> exists pre post, "notrequired" = pre +:+ "required" +:+ post) /\
    (tplRequired entry <> "" <-> exists pre post, "notrequired" = pre +:+ "required" +:+ post).
Proof.
  apply (X8_required_is_a_substring "T" notRequiredField "notrequired"); by vm_compute.
Defined.

(** X9.  For a taggable field whose schema value contains [format=], the
    format of the entry is the text after the first [format=] up to the
    next [format=] or the next comma, whichever comes first; it never holds
    a comma; and when it is empty no format member is rendered, although
    the option is there. *)
Theorem X9_format_value (typeName : string) (field : Field) (schemaTag : string) :
  taggable field = true ->
  tagValue "schema" field = Some schemaTag ->
  Contains schemaTag "format=" = true ->
  exists entry : SchemaField,
    parseStruct typeName [field] = Some (mkSchemaType typeName [entry]) /\
    Format entry = textUpTo "," (textUpTo "format=" (textAfter "format=" schemaTag)) /\
    noByte "," (Format entry) = true /\
    tplFormat entry =
      if String.eqb (Format entry) "" then ""
      else "," +:+ LF +:+ lit "            'format': '" +:+ Format entry +:+ lit "'".
Proof.
  intros Htaggable Hschema Hcontains. unfold tagValue in Hschema.
  destruct (FieldTag field) as [tag|] eqn:Htag; [|discriminate].
  injection Hschema as <-.
  exists (entryOf tag (FieldType field)).
  rewrite parseStruct_entries, (entries_taggable_single _ _ Htag Htaggable).
  split; [done|]. unfold entryOf. cbn [Format]. rewrite Hcontains.
  split; [done|]. split; [apply (noByte_textUpTo ",")|done].
Qed.

(** X9 at [format=xformat=y,z], whose format is [x], and at
    [format=,required], whose format is empty. *)
Lemma X9_format_value_witness :
  (exists entry : SchemaField,
     parseStruct "T" [twoFormatsField] = Some (mkSchemaType "T" [entry]) /\
     Format entry = "x" /\
     noByte "," (Format entry) = true /\
     tplFormat entry = "," +:+ LF +:+ lit "            'format': 'x'") /\
  (exists entry : SchemaField,
     parseStruct "T" [emptyFormatField] = Some (mkSchemaType "T" [entry]) /\
     Format entry = "" /\
     noByte "," (Format entry) = true /\
     tplFormat entry = "").
Proof.
  split.
  - destruct (X9_format_value "T" twoFormatsField "format=xformat=y,z")
      as (entry & Hparse & Hformat & Hcomma & Htpl); try by vm_compute.
    exists entry. split; [exact Hparse|]. rewrite Htpl, Hformat. by vm_compute.
  - destruct (X9_format_value "T" emptyFormatField "format=,required")
      as (entry & Hparse & Hformat & Hcomma & Htpl); try by vm_compute.
    exists entry. split; [exact Hparse|]. rewrite Htpl, Hformat. by vm_compute.
Defined.

(** X10.  [parseFieldTags] on a raw string literal made of tokens with one
    space between them: the tokens are read from left to right; a token
    with exactly one colon binds the text before the colon to the text after
    it, stripped of the double quotes at its ends, and replaces an earlier
    binding of the same key; a token without a colon or with more than one
    is passed over without an error. *)
Theorem X10_tag_tokens (tokens : list string) :
  Forall (fun t => noByte space t = true /\ noByte backtick t = true) tokens ->
  parseFieldTags (tagLiteral tokens) = fold_left tagStep tokens ∅.
Proof. apply parseFieldTags_tagLiteral. Qed.

(** X10 on four tokens of which two are passed over. *)
Lemma X10_tag_tokens_witness :
  parseFieldTags (tagLiteral mixedTokens) = <["xml" := "x"]> (<["json" := "id"]> ∅).
Proof.
  rewrite (X10_tag_tokens mixedTokens).
  - by vm_compute.
  - repeat constructor.
Defined.

Lemma parseFieldTags_pairs (pairs : list (string * string)) (key : string) :
  Forall (fun pair => plain (fst pair) = true /\ plain (snd pair) = true) pairs ->
  parseFieldTags (tagLiteral (map tagToken pairs)) !! key = lastValue key pairs.
Proof.
  intros Hplain. rewrite parseFieldTags_tagLiteral.
  - rewrite <- fold_left_insert_lookup. f_equal.
    generalize (∅ : gmap string string).
    induction Hplain as [|[k v] pairs [Hk Hv] _ IH]; intros m; [done|].
    cbn [map fold_left fst snd]. rewrite tagStep_tagToken by done. apply IH.
  - induction Hplain as [|[k v] pairs [Hk Hv] _ IH]; constructor; [|exact IH].
    by apply tagToken_noByte.
Qed.

(** X11.  [parseFieldTags] reads back what a well-formed tag says: on the
    literal made of [key:"value"] tokens whose keys and values hold no
    space, colon, double quote or backtick, looking up a key gives the
    value of the last token with this key, and nothing for a key that no
    token has. *)
Theorem X11_tag_round_trip (pairs : list (string * string)) (key : string) :
  Forall (fun pair => plain (fst pair) = true /\ plain (snd pair) = true) pairs ->
  parseFieldTags (tagLiteral (map tagToken pairs)) !! key = lastValue key pairs.
Proof. apply parseFieldTags_pairs. Qed.

(** X11 on a tag with a [json] and a [schema] key, at [json] and at a key
    that is not there. *)
Lemma X11_tag_round_trip_witness :
  parseFieldTags (tagLiteral (map tagToken omitemptyPairs)) !! "json" =
    Some "name,omitempty" /\
  parseFieldTags (tagLiteral (map tagToken omitemptyPairs)) !! "xml" = None.
Proof.
  split.
  - apply (X11_tag_round_trip omitemptyPairs "json"). repeat constructor.
  - apply (X11_tag_round_trip omitemptyPairs "xml"). repeat constructor.
Defined.

(** X12.  The name of an entry is the [json] value of the tag as it is
    written, options after a comma included: for a field with a well-formed
    tag whose last [json] value is not the skip marker, the entry is named
    by that whole value, and by the empty string when the tag has no [json]
    key. *)
Theorem X12_name_is_verbatim (typeName : string) (names : list string) (type : Node)
        (pairs : list (string * string)) :
  Forall (fun pair => plain (fst pair) = true /\ plain (snd pair) = true) pairs ->
  default "" (lastValue "json" pairs) <> "-" ->
  exists entry : SchemaField,
    parseStruct typeName [mkField names type (Some (tagLiteral (map tagToken pairs)))] =
      Some (mkSchemaType typeName [entry]) /\
    Name entry = default "" (lastValue "json" pairs) /\
    Type_ entry = getFieldType type /\
    Required entry = Contains (default "" (lastValue "schema" pairs)) "required".
Proof.
  intros Hplain Hjson.
  set (tag := tagLiteral (map tagToken pairs)).
  assert (Hget : forall key, mapGet (parseFieldTags tag) key = default "" (lastValue key pairs)).
  { intros key. unfold mapGet, tag. by rewrite parseFieldTags_pairs. }
  exists (entryOf tag type).
  rewrite parseStruct_entries, (entries_taggable_single _ tag); [| done |].
  - unfold entryOf. cbn [Name Type_ Required FieldType]. by rewrite !Hget.
  - unfold taggable, tagValue. cbn [FieldTag mbind option_bind].
    rewrite Hget. by apply negb_true_iff, String.eqb_neq.
Qed.

(** X12 on a field tagged [json:"name,omitempty"]. *)
Lemma X12_name_is_verbatim_witness :
  exists entry : SchemaField,
    parseStruct "User" [omitemptyField] = Some (mkSchemaType "User" [entry]) /\
    Name entry = "name,omitempty" /\
    Type_ entry = "string" /\
    Required entry = true.
Proof.
  apply (X12_name_is_verbatim "User" ["Name"] (Ident "string") omitemptyPairs).
  - repeat constructor.
  - by vm_compute.
Defined.

(** X13.  A structure without taggable field, be it empty, is not an error:
    its schema has no entry, the properties object of the document is
    empty, and the run writes this document and ends with status 0. *)
Theorem X13_no_taggable_field (env : Env) (typeName inputFile : string)
        (rest : list string) (node : Node) (fields : list Field)
        (fs : gmap string string) :
  typeName <> "" ->
  ParseFile env inputFile = inr node ->
  last (structDecls typeName node) = Some fields ->
  Forall (fun field => taggable field = false) fields ->
  writeError env (outputFileOf env typeName) = None ->
  parseStruct typeName fields = Some (mkSchemaType typeName []) /\
  run env typeName (inputFile :: rest) fs =
    (0%Z,
     mkOS [Stdout (confirmation (outputFileOf env typeName));
           WriteFile (outputFileOf env typeName)
                     (tplHead +:+ typeName +:+ tplProperties +:+ tplFoot) 420 None]
          (<[outputFileOf env typeName :=
               tplHead +:+ typeName +:+ tplProperties +:+ tplFoot]> fs)).
Proof.
  intros Hname Hparse Hlast Hnone Hwrite.
  assert (Hentries : entries fields = []).
  { clear -Hnone. unfold entries. induction Hnone as [|field fields Hf _ IH]; [done|].
    cbn [omap list_omap]. rewrite Hf. exact IH. }
  rewrite parseStruct_entries, Hentries. split; [done|].
  rewrite (run_parsed _ _ _ _ _ _ Hname Hparse), Hlast. cbn zeta.
  by rewrite Hwrite, Hentries.
Qed.

(** X13 on a file that declares a structure without fields. *)
Lemma X13_no_taggable_field_witness :
  parseStruct "Empty" [] = Some (mkSchemaType "Empty" []) /\
  run (envOf emptyFile None) "Empty" ["empty.go"] ∅ =
    (0%Z,
     mkOS [Stdout (confirmation "empty.schema.json");
           WriteFile "empty.schema.json"
                     (tplHead +:+ "Empty" +:+ tplProperties +:+ tplFoot) 420 None]
          (<["empty.schema.json" :=
               tplHead +:+ "Empty" +:+ tplProperties +:+ tplFoot]> ∅)).
Proof.
  apply (X13_no_taggable_field (envOf emptyFile None) "Empty" "empty.go" [] emptyFile [] ∅).
  - discriminate.
  - reflexivity.
  - reflexivity.
  - constructor.
  - reflexivity.
Defined.

(* ===================================================================== *)
(** ** Further properties: numbers and names *)
(* ===================================================================== *)

Lemma digitsFrom_of_uint_acc (d : Decimal.uint) (acc : positive) :
  digitsFrom (Z.pos acc) (NilEmpty.string_of_uint d) =
    Some (Z.pos (Pos.of_uint_acc d acc)).
Proof.
  revert acc; induction d as [|d IH|d IH|d IH|d IH|d IH|d IH|d IH|d IH|d IH|d IH];
    intros acc; [done|..];
    cbn [NilEmpty.string_of_uint digitsFrom Pos.of_uint_acc];
    rewrite <- IH;
    match goal with
    | |- context [digit ?c] =>
        let v := eval vm_compute in (digit c) in change (digit c) with v
    end;
    cbn iota; f_equal; lia.
Qed.

Lemma digitsFrom_of_uint (d : Decimal.uint) :
  digitsFrom 0 (NilEmpty.string_of_uint d) = Some (Z.of_N (Pos.of_uint d)).
Proof.
  induction d as [|d IH|d IH|d IH|d IH|d IH|d IH|d IH|d IH|d IH|d IH];
    [done|exact IH|..];
    cbn [NilEmpty.string_of_uint digitsFrom Pos.of_uint Z.of_N];
    rewrite <- digitsFrom_of_uint_acc;
    match goal with
    | |- context [digit ?c] =>
        let v := eval vm_compute in (digit c) in change (digit c) with v
    end;
    reflexivity.
Qed.

Lemma string_of_uint_head (d : Decimal.uint) :
  d <> Decimal.Nil ->
  exists c rest, NilEmpty.string_of_uint d = String c rest /\ isSign c = false.
Proof. destruct d; [done|..]; intros _; by eexists _, _. Qed.

(** What [strconv.Atoi] returns is in the range of [int]. *)
Lemma Atoi_range (s : string) (v : Z) :
  Atoi s = Some v -> (- 2 ^ 63 <= v < 2 ^ 63)%Z.
Proof.
  rewrite Atoi_ParseInt10. unfold ParseInt10.
  destruct s as [|c0 rest]; [done|].
  destruct (if isSign c0 then rest else String c0 rest) as [|b body] eqn:Hbody; [done|].
  destruct (digitsFrom 0 (String b body)) as [un|] eqn:Hun; [|done].
  apply digitsFrom_bound in Hun; [|lia].
  unfold intSize. change (2 ^ (64 - 1))%Z with (2 ^ 63)%Z.
  destruct (Ascii.eqb c0 "-"); cbn [negb andb].
  - destruct (Z.ltb_spec (2 ^ 63) un); [done|]. intros [= <-]. lia.
  - destruct (Z.leb_spec (2 ^ 63) un); [done|]. intros [= <-]. lia.
Qed.

(** [strconv.Atoi] reads back the decimal text of an [int]. *)
Lemma Atoi_formatInt (v : Z) :
  (- 2 ^ 63 <= v < 2 ^ 63)%Z -> Atoi (formatInt v) = Some v.
Proof.
  intros Hrange. rewrite Atoi_ParseInt10. unfold formatInt.
  destruct v as [|p|p]; [done|..]; cbn [Z.to_int NilZero.string_of_int];
    pose proof (Unsigned.to_uint_nonnil p) as Hnil;
    pose proof (digitsFrom_of_uint (Pos.to_uint p)) as Hdigits;
    rewrite Unsigned.of_to in Hdigits; cbn [Z.of_N] in Hdigits;
    destruct (string_of_uint_head _ Hnil) as (c & rest & Hs & Hsign);
    assert (Hzero : NilZero.string_of_uint (Pos.to_uint p) =
                    NilEmpty.string_of_uint (Pos.to_uint p))
      by (by destruct (Pos.to_uint p)).
  - rewrite Hzero, Hs. unfold ParseInt10. rewrite Hsign.
    apply orb_false_iff in Hsign as [-> _].
    rewrite <- Hs, Hdigits. cbn [negb andb].
    unfold intSize. change (2 ^ (64 - 1))%Z with (2 ^ 63)%Z.
    destruct (Z.leb_spec (2 ^ 63) (Z.pos p)); [lia|done].
  - rewrite Hzero. unfold ParseInt10. cbn [isSign Ascii.eqb Bool.eqb orb].
    rewrite Hs, <- Hs, Hdigits. cbn [negb andb].
    unfold intSize. change (2 ^ (64 - 1))%Z with (2 ^ 63)%Z.
    destruct (Z.ltb_spec (2 ^ 63) (Z.pos p)); [lia|done].
Qed.

(** X14.  The minimum length of an entry, when there is one, is in the
    range of [int]; the member rendered for it holds its decimal text,
    whatever the spelling in the tag was; and [strconv.Atoi] reads this
    text back to the same integer. *)
Theorem X14_minLength_round_trip (typeName : string) (fields : list Field) :
  exists schema : SchemaType,
    parseStruct typeName fields = Some schema /\
    Forall (fun entry =>
              forall v : Z,
                MinLength entry = Some v ->
                (- 2 ^ 63 <= v < 2 ^ 63)%Z /\
                tplMinLength entry =
                  "," +:+ LF +:+ lit "            'minLength': " +:+ formatInt v /\
                Atoi (formatInt v) = Some v)
           (Fields schema).
Proof.
  exists (mkSchemaType typeName (entries fields)).
  split; [apply parseStruct_entries|]. cbn [Fields].
  eapply Forall_impl; [apply entries_Forall|].
  intros entry (tag & type & -> & _) v Hv.
  assert (Hrange : (- 2 ^ 63 <= v < 2 ^ 63)%Z).
  { unfold entryOf in Hv. cbn [MinLength] in Hv.
    destruct (Contains _ "minLength="); [|discriminate]. by apply Atoi_range in Hv. }
  split; [exact Hrange|]. split; [|by apply Atoi_formatInt].
  unfold tplMinLength. by rewrite Hv.
Qed.

(** X14 at [minLength=+007], which is rendered as 7. *)
Lemma X14_minLength_round_trip_witness :
  parseStruct "T" [plusSevenField] =
    Some (mkSchemaType "T" [mkSchemaField "s" "string" false (Some 7%Z) "" ""]) /\
  tplMinLength (mkSchemaField "s" "string" false (Some 7%Z) "" "") =
    "," +:+ LF +:+ lit "            'minLength': 7" /\
  Atoi "7" = Some 7%Z.
Proof.
  destruct (X14_minLength_round_trip "T" [plusSevenField]) as (schema & Hparse & Hall).
  assert (Hschema : schema = mkSchemaType "T" [mkSchemaField "s" "string" false (Some 7%Z) "" ""]).
  { vm_compute in Hparse. by injection Hparse as <-. }
  subst schema. split; [by vm_compute|].
  inversion Hall as [|entry rest Hentry _]; subst.
  destruct (Hentry 7%Z eq_refl) as (_ & Htpl & Hatoi).
  split; [exact Htpl|exact Hatoi].
Defined.

Lemma lowerByte_not_upper (c : ascii) : isUpper (lowerByte c) = false.
Proof.
  unfold lowerByte, isUpper.
  destruct ((65 <=? nat_of_ascii c) && (nat_of_ascii c <=? 90))%nat eqn:Hc; [|exact Hc].
  apply andb_true_iff in Hc as [H1%Nat.leb_le H2%Nat.leb_le].
  rewrite nat_ascii_embedding by lia.
  apply andb_false_iff. right. apply Nat.leb_gt. lia.
Qed.

Lemma mapBytes_length (g : ascii -> ascii) (s : string) :
  String.length (mapBytes g s) = String.length s.
Proof. induction s as [|c s IH]; [done|]. cbn. by rewrite IH. Qed.

Lemma list_ascii_append (s t : string) :
  list_ascii_of_string (s +:+ t) = list_ascii_of_string s ++ list_ascii_of_string t.
Proof. induction s as [|c s IH]; [done|]. rewrite append_String. cbn. by rewrite IH. Qed.

(** X15.  For a type name of ASCII characters, the name of the output file
    does not depend on the Unicode tables, is 12 bytes longer than the type
    name, and holds no upper-case letter. *)
Theorem X15_output_file_name (env env' : Env) (typeName : string) :
  isASCII typeName = true ->
  outputFileOf env typeName = outputFileOf env' typeName /\
  String.length (outputFileOf env typeName) = String.length typeName + 12 /\
  forallb (fun c => negb (isUpper c)) (list_ascii_of_string (outputFileOf env typeName)) = true.
Proof.
  intros Hascii. unfold outputFileOf, ToLower. rewrite Hascii.
  split; [done|]. split.
  - by rewrite length_append, mapBytes_length.
  - rewrite list_ascii_append, forallb_app. apply andb_true_iff. split; [|done].
    clear. induction typeName as [|c s IH]; [done|].
    cbn. by rewrite lowerByte_not_upper, IH.
Qed.

(** X15 at [UserID]. *)
Lemma X15_output_file_name_witness :
  outputFileOf (envOf userGoFile None) "UserID" = outputFileOf envParseError "UserID" /\
  String.length (outputFileOf (envOf userGoFile None) "UserID") = 6 + 12 /\
  forallb (fun c => negb (isUpper c))
          (list_ascii_of_string (outputFileOf (envOf userGoFile None) "UserID")) = true.
Proof.
  apply (X15_output_file_name (envOf userGoFile None) envParseError "UserID").
  reflexivity.
Defined.

Lemma countByte_string_of_uint (c : ascii) (d : Decimal.uint) :
  digit c = None -> countByte c (NilEmpty.string_of_uint d) = 0.
Proof.
  intros Hc.
  induction d as [|d IH|d IH|d IH|d IH|d IH|d IH|d IH|d IH|d IH|d IH]; [done|..];
    cbn [NilEmpty.string_of_uint countByte]; rewrite IH;
    match goal with
    | |- context [Ascii.eqb ?k c] =>
        destruct (Ascii.eqb_spec k c) as [<-|_]; [by vm_compute in Hc|done]
    end.
Qed.

Lemma countByte_formatInt (c : ascii) (v : Z) :
  digit c = None -> Ascii.eqb "-" c = false -> countByte c (formatInt v) = 0.
Proof.
  intros Hc Hminus. unfold formatInt.
  assert (Hzero : forall d, countByte c (NilZero.string_of_uint d) = 0).
  { intros d. destruct d; try apply (countByte_string_of_uint c _ Hc).
    cbn [NilZero.string_of_uint countByte].
    destruct (Ascii.eqb_spec "0" c) as [<-|_]; [by vm_compute in Hc|done]. }
  destruct v as [|p|p]; cbn [Z.to_int NilZero.string_of_int countByte];
    rewrite ?Hminus; apply Hzero.
Qed.

Lemma countByte_tplField (c : ascii) (i : nat) (entry : SchemaField) :
  In c ["{"; "}"]%char ->
  noByte c (Name entry) && noByte c (Type_ entry) &&
  noByte c (Format entry) && noByte c (Description entry) = true ->
  countByte c (tplField i entry) = 1.
Proof.
  intros Hc Hfree.
  repeat (apply andb_true_iff in Hfree as [Hfree ?]).
  repeat match goal with
         | H : noByte c _ = true |- _ => apply noByte_countByte in H
         end.
  unfold tplField, tplRequired, tplMinLength, tplFormat, tplDescription.
  destruct Hc as [<-|[<-|[]]];
    destruct (Nat.eqb i 0); destruct (Required entry);
    destruct (MinLength entry) as [v|];
    destruct (String.eqb (Format entry) ""); destruct (String.eqb (Description entry) "");
    rewrite ?countByte_append, ?countByte_formatInt by done;
    repeat match goal with H : countByte _ _ = 0 |- _ => rewrite H; clear H end;
    reflexivity.
Qed.

Lemma countByte_tplRange (c : ascii) (fields : list SchemaField) (i : nat) :
  In c ["{"; "}"]%char ->
  forallb (fun entry => noByte c (Name entry) && noByte c (Type_ entry) &&
                        noByte c (Format entry) && noByte c (Description entry))
          fields = true ->
  countByte c (tplRange i fields) = length fields.
Proof.
  intros Hc. revert i; induction fields as [|entry fields IH]; intros i; [done|].
  cbn [forallb tplRange length]. intros [Hentry Hrest]%andb_true_iff.
  by rewrite countByte_append, (countByte_tplField c i entry Hc Hentry), IH.
Qed.

(** X16.  The braces of the rendered document are balanced: when neither
    the title nor the name, type, format or description of any entry holds
    a brace, the document has as many opening as closing braces, two and one
    for each entry. *)
Theorem X16_balanced_braces (schema : SchemaType) :
  freeOf "{" schema = true ->
  freeOf "}" schema = true ->
  countByte "{" (rendered schema) = 2 + length (Fields schema) /\
  countByte "}" (rendered schema) = 2 + length (Fields schema).
Proof.
  unfold freeOf, rendered, schemaTemplate_Execute.
  intros [Hto Hfo]%andb_true_iff [Htc Hfc]%andb_true_iff.
  apply noByte_countByte in Hto, Htc.
  rewrite !countByte_append, Hto, Htc.
  rewrite (countByte_tplRange "{"), (countByte_tplRange "}"); cbn [In]; auto.
  change (countByte "{" tplHead) with 1. change (countByte "}" tplHead) with 0.
  change (countByte "{" tplProperties) with 1. change (countByte "}" tplProperties) with 0.
  change (countByte "{" tplFoot) with 0. change (countByte "}" tplFoot) with 2.
  lia.
Qed.

(** X16 on the schema of the scenario. *)
Lemma X16_balanced_braces_witness :
  countByte "{" (rendered scenarioSchema) = 6 /\
  countByte "}" (rendered scenarioSchema) = 6.
Proof.
  apply (X16_balanced_braces scenarioSchema); reflexivity.
Defined.

(* ===================================================================== *)
(** ** Fields that are left out, and the members of the document *)
(* ===================================================================== *)

(** A field that is not taggable gives no entry, wherever it stands. *)
Lemma parseStruct_without (typeName : string) (before after : list Field) (field : Field) :
  taggable field = false ->
  parseStruct typeName [field] = Some (mkSchemaType typeName []) /\
  parseStruct typeName (before ++ field :: after) = parseStruct typeName (before ++ after).
Proof.
  intros Hskip.
  assert (Hnone : entries [field] = []).
  { unfold entries. cbn [omap list_omap]. by rewrite Hskip. }
  rewrite !parseStruct_entries. split; [by rewrite Hnone|].
  change (field :: after) with ([field] ++ after).
  by rewrite !entries_app, Hnone.
Qed.

(** A token that binds the key [json] starts with [json:]. *)
Lemma json_key_prefix (token : string) :
  countByte colon token = 1 -> textUpTo ":" token = "json" ->
  HasPrefix token "json:" = true.
Proof.
  intros Hcount Hkey.
  assert (Hc : Contains token ":" = true).
  { destruct (Contains token ":") eqn:Hc; [done|].
    apply Contains_false_Index in Hc.
    change ":" with (String colon "") in Hc.
    apply Index_single_None, noByte_countByte in Hc. lia. }
  rewrite (textUpTo_textAfter ":" token Hc), Hkey.
  change ("json" +:+ ":" +:+ textAfter ":" token) with ("json:" +:+ textAfter ":" token).
  apply HasPrefix_append.
Qed.

Lemma fold_left_tagStep_json (tokens : list string) (tags : gmap string string)
      (value : string) :
  tags !! "json" = Some value ->
  Forall (fun t => HasPrefix t "json:" = false) tokens ->
  fold_left tagStep tokens tags !! "json" = Some value.
Proof.
  intros Htags Htokens. revert tags Htags.
  induction Htokens as [|t tokens Ht _ IH]; intros tags Htags; [done|].
  cbn [fold_left]. apply IH. unfold tagStep.
  destruct (Nat.eqb_spec (countByte colon t) 1) as [Hcount|_]; [|done].
  rewrite lookup_insert_ne; [done|].
  intros Hkey. by rewrite (json_key_prefix t Hcount Hkey) in Ht.
Qed.

Lemma skipToken_tagStep (tags : gmap string string) :
  tagStep tags skipToken = <["json" := "-"]> tags.
Proof. by apply tagStep_tagToken. Qed.

(** The tag of a field in which [json:"-"] stands among tokens separated
    by spaces, and no later token starts with [json:]. *)
Lemma parseFieldTags_skipToken (before after : list string) :
  Forall (fun t => noByte space t = true /\ noByte backtick t = true) (before ++ after) ->
  Forall (fun t => HasPrefix t "json:" = false) after ->
  parseFieldTags (tagLiteral (before ++ skipToken :: after)) !! "json" = Some "-".
Proof.
  intros [Hbefore Hafter]%Forall_app Hjson.
  rewrite parseFieldTags_tagLiteral.
  - rewrite fold_left_app. cbn [fold_left]. rewrite skipToken_tagStep.
    apply fold_left_tagStep_json; [|done]. by rewrite lookup_insert_eq.
  - apply Forall_app. split; [done|]. constructor; [|done]. by apply tagToken_noByte.
Qed.

(** C4.  A field without a tag gives no entry.  A field whose tag is a raw
    string literal of tokens with one space between them, one of which is
    [json:"-"] and is followed by no token that starts with [json:], gives
    no entry either, whatever the other tokens are.  In both cases the
    schema built from a structure is the one built from the structure
    without that field. *)
Theorem C4_skip_token_among_spaced_tokens (typeName : string) (before after : list Field)
        (field : Field) :
  FieldTag field = None \/
  (exists tokens1 tokens2 : list string,
     FieldTag field = Some (tagLiteral (tokens1 ++ skipToken :: tokens2)) /\
     Forall (fun t => noByte space t = true /\ noByte backtick t = true)
            (tokens1 ++ tokens2) /\
     Forall (fun t => HasPrefix t "json:" = false) tokens2) ->
  parseStruct typeName [field] = Some (mkSchemaType typeName []) /\
  parseStruct typeName (before ++ field :: after) = parseStruct typeName (before ++ after).
Proof.
  intros Hskip. apply parseStruct_without.
  unfold taggable, tagValue.
  destruct Hskip as [->|(tokens1 & tokens2 & -> & Hspaced & Hjson)]; [done|].
  cbn [mbind option_bind]. unfold mapGet.
  by rewrite parseFieldTags_skipToken.
Qed.

(** C4 at the two fields of [user.go] that are left out, at a field marked
    [json:"-"] that carries schema options as well, and at one marked
    between tokens of other keys, tokens without a colon and tokens with
    two. *)
Lemma C4_skip_token_among_spaced_tokens_witness :
  parseStruct "User" (firstn 6 userGo ++ untagged :: []) =
    parseStruct "User" (firstn 6 userGo ++ []) /\
  parseStruct "User" (firstn 5 userGo ++
                      mkField ["IgnoreInJson"] (Ident "string") (Some (lit "`json:'-'`"))
                      :: [untagged]) =
    parseStruct "User" (firstn 5 userGo ++ [untagged]) /\
  parseStruct "User" (scenarioUser ++ skipped :: []) = parseStruct "User" (scenarioUser ++ []) /\
  parseStruct "User" [skippedAmongOthers] = Some (mkSchemaType "User" []).
Proof.
  split; [|split; [|split]].
  - apply (C4_skip_token_among_spaced_tokens "User" (firstn 6 userGo) [] untagged). by left.
  - apply (C4_skip_token_among_spaced_tokens "User" (firstn 5 userGo) [untagged]).
    right. exists [], []. split; [reflexivity|]. split; constructor.
  - apply (C4_skip_token_among_spaced_tokens "User" scenarioUser [] skipped).
    right. exists [], [lit "schema:'required,minLength=3'"].
    split; [reflexivity|]. split; repeat constructor.
  - apply (C4_skip_token_among_spaced_tokens "User" [] [] skippedAmongOthers).
    right. exists [lit "xml:'secret,attr'"; "a:b:c"],
                  [lit "schema:'required,minLength=3'"; "json"; lit "yaml:'s'"].
    split; [reflexivity|]. split; repeat constructor.
Defined.

(** C4 as stated fails when [json:"-"] is not a token between spaces of a
    raw string literal, or is followed by a second [json] token: with a tab
    after it, in an interpreted string literal, and right after another
    token, the field gives an entry with the empty name; before
    [json:"secret"] it gives an entry named [secret]. *)
Lemma C4_skip_token_not_recognised :
  skipToken = lit "json:'-'" /\
  FieldTag tabSeparated = Some (lit "`json:'-'" +:+ String TAB (lit "schema:'required'`")) /\
  parseStruct "T" [tabSeparated] =
    Some (mkSchemaType "T" [mkSchemaField "" "string" false None "" ""]) /\
  FieldTag interpreted = Some (String quote ("json:\" +:+ String quote ("-\" +:+ lit "''"))) /\
  parseStruct "T" [interpreted] =
    Some (mkSchemaType "T" [mkSchemaField "" "string" false None "" ""]) /\
  FieldTag glued = Some (lit "`xml:'a'json:'-'`") /\
  parseStruct "T" [glued] =
    Some (mkSchemaType "T" [mkSchemaField "" "string" false None "" ""]) /\
  FieldTag overridden = Some (lit "`json:'-' json:'secret'`") /\
  parseStruct "T" [overridden] =
    Some (mkSchemaType "T" [mkSchemaField "secret" "string" false None "" ""]) /\
  parseStruct "T" [tabSeparated; untagged] <> parseStruct "T" [untagged].
Proof. repeat split; by vm_compute. Qed.

(** The entries of declarations with well-formed tags are the members that
    the declarations name. *)
Lemma tagValue_fieldOf (decl : FieldDecl) (key : string) :
  wellFormed decl ->
  tagValue key (fieldOf decl) = (fun pairs => default "" (lastValue key pairs)) <$> declPairs decl.
Proof.
  unfold wellFormed, tagValue, fieldOf. cbn [FieldTag].
  destruct (declPairs decl) as [pairs|]; [|done].
  intros Hplain. cbn [fmap option_fmap option_map mbind option_bind].
  unfold mapGet. by rewrite parseFieldTags_pairs.
Qed.

Lemma taggable_fieldOf (decl : FieldDecl) :
  wellFormed decl -> taggable (fieldOf decl) = appears decl.
Proof.
  intros Hwf. unfold taggable, appears, memberName.
  rewrite (tagValue_fieldOf decl "json" Hwf).
  destruct (declPairs decl) as [pairs|]; [|done].
  cbn [fmap option_fmap option_map mbind option_bind].
  by destruct (String.eqb _ "-").
Qed.

Lemma entries_fieldOf (decls : list FieldDecl) :
  Forall wellFormed decls ->
  map (fun entry => (Name entry, Type_ entry)) (entries (map fieldOf decls)) = members decls /\
  length (entries (map fieldOf decls)) = length (List.filter appears decls).
Proof.
  induction 1 as [|decl decls Hwf _ [IHm IHl]]; [done|].
  unfold entries, members in *. cbn [map omap list_omap List.filter].
  rewrite (taggable_fieldOf decl Hwf).
  pose proof (tagValue_fieldOf decl "json" Hwf) as Hjson.
  unfold appears, memberName in *. unfold tagValue in Hjson.
  destruct (declPairs decl) as [pairs|] eqn:Hpairs;
    cbn [fmap option_fmap option_map mbind option_bind] in *; [|done].
  destruct (String.eqb (default "" (lastValue "json" pairs)) "-");
    cbn [fmap option_fmap option_map mbind option_bind]; [done|].
  destruct (FieldTag (fieldOf decl)) as [tag|] eqn:Htag; [|done].
  cbn [mbind option_bind] in *. injection Hjson as Hjson.
  cbn [map length]. rewrite IHm, IHl. split; [|done].
  unfold entryOf. cbn [Name Type_]. rewrite Hjson. done.
Qed.

(** The text that the template gives for an entry is the text of a
    member, and the text it gives for a schema is the text of a
    document. *)
Lemma tplField_memberBlock (i : nat) (entry : SchemaField) :
  tplField i entry = memberBlock i (Name entry) (Type_ entry) (optionalMembers entry).
Proof.
  unfold tplField, memberBlock, optionalMembers. by rewrite !append_assoc.
Qed.

Lemma schemaTemplate_Execute_documentOf (schema : SchemaType) :
  schemaTemplate_Execute schema =
    inr (documentOf (TypeName schema)
           (imap (fun i entry =>
                    memberBlock i (Name entry) (Type_ entry) (optionalMembers entry))
                 (Fields schema))).
Proof.
  unfold schemaTemplate_Execute. f_equal. rewrite tplRange_imap.
  rewrite (imap_ext _ (fun i entry =>
                         memberBlock i (Name entry) (Type_ entry) (optionalMembers entry)))
    by (intros; apply tplField_memberBlock).
  unfold tplHead, tplProperties, tplFoot, documentOf. by rewrite !append_assoc.
Qed.

(** C5.  A structure of N declarations that appear in the document, each
    declaration counted once whatever the number of names it declares,
    gives a schema of exactly N entries, and the rendered document holds in
    its properties object exactly N members, in the order of the
    declarations: the k-th member is named by the [json] value of the k-th
    such declaration, between double quotes, and is an object that starts
    with the schema type of its declared type. *)
Theorem C5_one_member_per_declaration (typeName : string) (decls : list FieldDecl) :
  Forall wellFormed decls ->
  exists schema : SchemaType,
    parseStruct typeName (map fieldOf decls) = Some schema /\
    length (Fields schema) = length (List.filter appears decls) /\
    map (fun entry => (Name entry, Type_ entry)) (Fields schema) = members decls /\
    schemaTemplate_Execute schema =
      inr (documentOf typeName
             (imap (fun i entry =>
                      memberBlock i (Name entry) (Type_ entry) (optionalMembers entry))
                   (Fields schema))).
Proof.
  intros Hwf. exists (mkSchemaType typeName (entries (map fieldOf decls))).
  destruct (entries_fieldOf decls Hwf) as [Hmembers Hlength].
  split; [apply parseStruct_entries|]. cbn [Fields].
  split; [done|]. split; [done|].
  apply (schemaTemplate_Execute_documentOf (mkSchemaType typeName _)).
Qed.

(** C5 on [user.go]: seven declarations of which five appear, and a
    document of five members. *)
Lemma C5_one_member_per_declaration_witness :
  map fieldOf userGoDecls = userGo /\
  length (List.filter appears userGoDecls) = 5 /\
  members userGoDecls =
    [("id", "integer"); ("name", "string"); ("username", "string"); ("email", "string");
     ("isActive", "boolean")] /\
  exists schema : SchemaType,
    parseStruct "User" (map fieldOf userGoDecls) = Some schema /\
    length (Fields schema) = length (List.filter appears userGoDecls) /\
    map (fun entry => (Name entry, Type_ entry)) (Fields schema) = members userGoDecls /\
    schemaTemplate_Execute schema =
      inr (documentOf "User"
             (imap (fun i entry =>
                      memberBlock i (Name entry) (Type_ entry) (optionalMembers entry))
                   (Fields schema))).
Proof.
  split; [reflexivity|]. split; [reflexivity|]. split; [reflexivity|].
  apply (C5_one_member_per_declaration "User" userGoDecls).
  unfold userGoDecls. repeat constructor.
Defined.

(** C5 as stated fails when one declaration names several fields: the two
    fields [A] and [B] have a tag, whose [json] value is [x] and not [-],
    and the properties object has one member.  It fails as well when the
    tag is not made of tokens between spaces: the field marked [json:"-"]
    with a tab after the mark is a member, under the empty name. *)
Lemma C5_two_fields_one_member :
  FieldNames twoNames = ["A"; "B"] /\
  tagValue "json" twoNames = Some "x" /\
  parseStruct "Pair" [twoNames] =
    Some (mkSchemaType "Pair" [mkSchemaField "x" "string" false None "" ""]) /\
  schemaTemplate_Execute (mkSchemaType "Pair" [mkSchemaField "x" "string" false None "" ""]) =
    inr (documentOf "Pair" [memberBlock 0 "x" "string" ""]) /\
  FieldTag tabSeparated = Some (lit "`json:'-'" +:+ String TAB (lit "schema:'required'`")) /\
  parseStruct "T" [tabSeparated] =
    Some (mkSchemaType "T" [mkSchemaField "" "string" false None "" ""]) /\
  schemaTemplate_Execute (mkSchemaType "T" [mkSchemaField "" "string" false None "" ""]) =
    inr (documentOf "T" [memberBlock 0 "" "string" ""]).
Proof. repeat split; by vm_compute. Qed.

(* ===================================================================== *)
(** ** Further properties: the command line *)
(* ===================================================================== *)

(** [flag.Parse] exits with the status 0 or 2 only. *)
Lemma flagParse_exit (arguments : list string) (typeName : string) (code : Z) :
  flagParse typeName arguments = FlagExit code -> code = 0%Z \/ code = 2%Z.
Proof.
  remember (length arguments) as n eqn:Hn.
  revert arguments typeName Hn.
  induction n as [n IH] using lt_wf_ind. intros arguments typeName ->.
  destruct arguments as [|s rest]; [done|].
  cbn [flagParse].
  destruct s as [|c0 [|c1 tail]]; [done|done|].
  destruct (negb (Ascii.eqb c0 "-")); [done|].
  destruct (Ascii.eqb c1 "-" && String.eqb tail ""); [done|].
  destruct (if Ascii.eqb c1 "-" then tail else String c1 tail) as [|n0 ntail];
    [intros [= <-]; by right|].
  destruct (Ascii.eqb n0 "-" || Ascii.eqb n0 "="); [intros [= <-]; by right|].
  destruct (Index ntail "=") as [i|].
  - destruct (String.eqb _ "type").
    + apply (IH (length rest)); [cbn; lia|done].
    + destruct (_ || _); intros [= <-]; auto.
  - destruct (String.eqb _ "type").
    + destruct rest as [|value rest']; [intros [= <-]; by right|].
      apply (IH (length rest')); [cbn; lia|done].
    + destruct (_ || _); intros [= <-]; auto.
Qed.

(** X1.  The program ends with the status 0, 1 or 2 and never with a panic.
    It ends with 2 exactly when [flag.Parse] rejects the command line, and
    with 0 exactly when the command line asks for help with a flag that is
    not defined, or gives a type name and an input file such that the file
    parses, some declaration of the file at any depth gives the name to a
    structure type, and the write succeeds. *)
Theorem X1_exit_status_of_a_command (env : Env) (arguments : list string)
        (fs : gmap string string) :
  let status := fst (command env arguments fs) in
  (status = 0%Z \/ status = 1%Z \/ status = 2%Z) /\
  (status = 2%Z <-> flagParse "" arguments = FlagExit 2) /\
  (status = 0%Z <->
     flagParse "" arguments = FlagExit 0 \/
     exists (typeName inputFile : string) (rest : list string) (node : Node),
       flagParse "" arguments = FlagDone typeName (inputFile :: rest) /\
       typeName <> "" /\
       ParseFile env inputFile = inr node /\
       declaresStruct typeName node = true /\
       writeError env (outputFileOf env typeName) = None).
Proof.
  cbn zeta. unfold command.
  destruct (flagParse "" arguments) as [code|typeName args] eqn:Hflags.
  - cbn [fst]. destruct (flagParse_exit _ _ _ Hflags) as [->| ->].
    + split; [by left|]. split; [done|]. split; [by left|done].
    + split; [by right; right|]. split; [done|]. split; [done|].
      intros [[=]|(? & ? & ? & ? & [=] & _)].
  - destruct (run_status env typeName args fs) as [Hstatus Hzero].
    split; [destruct Hstatus as [->| ->]; auto|].
    split; [split; [|done]; destruct Hstatus as [->| ->]; done|].
    rewrite Hzero. split.
    + intros [Hname (inputFile & rest & node & -> & Hrest)]. right.
      by exists typeName, inputFile, rest, node.
    + intros [[=]|(typeName' & inputFile & rest & node & [= <- ->] & Hname & Hrest)].
      split; [done|]. by exists inputFile, rest, node.
Qed.

(** X1 on command lines for [user.go]: the flag with [=], with the value
    as the next argument and with two dashes; the flag after the file,
    where it is an argument and no flag; a flag that is not defined; the
    flag without its value; and [-h]. *)
Lemma X1_exit_status_of_a_command_witness :
  map (fun arguments => fst (command (envOf userGoFile None) arguments ∅))
      [ ["-type=User"; "user.go"]; ["-type"; "User"; "user.go"]; ["--type=User"; "user.go"];
        ["-type=User"; "--"; "user.go"];
        ["user.go"; "-type=User"]; ["-type=User"]; ["-type="; "user.go"];
        ["-bogus"; "user.go"]; ["-type"]; ["---type=User"; "user.go"]; ["-=User"];
        ["-h"]; ["--help"] ] =
    [0; 0; 0; 0; 1; 1; 1; 2; 2; 2; 2; 0; 0]%Z /\
  (fst (command (envOf userGoFile None) ["-h"] ∅) = 0%Z <->
     flagParse "" ["-h"] = FlagExit 0 \/
     exists (typeName inputFile : string) (rest : list string) (node : Node),
       flagParse "" ["-h"] = FlagDone typeName (inputFile :: rest) /\
       typeName <> "" /\
       ParseFile (envOf userGoFile None) inputFile = inr node /\
       declaresStruct typeName node = true /\
       writeError (envOf userGoFile None) (outputFileOf (envOf userGoFile None) typeName) = None).
Proof.
  split; [by vm_compute|].
  apply (X1_exit_status_of_a_command (envOf userGoFile None) ["-h"] ∅).
Defined.

(** X5.  The events of the program are of one of four shapes: none, when
    [flag.Parse] exits, with status 0 or 2 and the files as they were; one
    line of diagnostic and nothing else, with status 1 and the files as
    they were; the confirmation followed by the one successful write of the
    output file with the mode 0644, with status 0; or the confirmation, the
    one failed write, and the report of its error, with status 1.  So the
    program writes at most once, only to the output file of the type name
    that [flag.Parse] has left, and never before it has printed the
    confirmation. *)
Theorem X5_events_of_a_command (env : Env) (arguments : list string)
        (fs : gmap string string) :
  let result := command env arguments fs in
  (exists code : Z,
     flagParse "" arguments = FlagExit code /\ (code = 0%Z \/ code = 2%Z) /\
     result = (code, mkOS [] fs)) \/
  (exists (typeName : string) (args : list string),
     flagParse "" arguments = FlagDone typeName args /\
     let name := outputFileOf env typeName in
     (exists diagnostic : string,
        result = (1%Z, mkOS [Stdout diagnostic] fs)) \/
     (exists data : string,
        result = (0%Z, mkOS [Stdout (confirmation name); WriteFile name data 420 None]
                            (<[name := data]> fs))) \/
     (exists data err : string,
        fst result = 1%Z /\
        trace (snd result) =
          [Stdout (confirmation name); WriteFile name data 420 (Some err);
           Stdout ("Error generating schema: " +:+ err +:+ LF)])).
Proof.
  cbn zeta. unfold command.
  destruct (flagParse "" arguments) as [code|typeName args] eqn:Hflags.
  - left. exists code. split; [done|]. split; [|done]. by apply flagParse_exit in Hflags.
  - right. exists typeName, args. split; [done|]. apply run_events.
Qed.

(** X5 on a command line with a flag that is not defined: no event. *)
Lemma X5_events_of_a_command_witness :
  command (envOf userGoFile None) ["-bogus"; "user.go"] ∅ = (2%Z, mkOS [] ∅) /\
  trace (snd (command (envOf userGoFile None) ["-type=User"; "user.go"] ∅)) =
    [Stdout (confirmation "user.schema.json");
     WriteFile "user.schema.json" (rendered (mkSchemaType "User" (entries userGo))) 420 None].
Proof.
  split.
  - destruct (X5_events_of_a_command (envOf userGoFile None) ["-bogus"; "user.go"] ∅)
      as [(code & [= <-] & _ & Hresult)|(typeName & args & [=] & _)].
    exact Hresult.
  - by vm_compute.
Defined.

(** X4.  Running the generator again changes nothing, as long as the input
    path does not lead to the output file: when the parser reads the input
    file from the files, after a run that ended with status 0 the same run,
    if its write succeeds as well, ends with status 0 again, with the same
    events, and leaves every file as the first run left it. *)
Theorem X4_run_again_on_files (fileOf : string -> string)
        (parseSource : string -> string + Node) (openError : string -> string)
        (writeErr1 writeErr2 : string -> option string) (lower : string -> string)
        (typeName inputFile : string) (rest : list string) (fs : gmap string string) :
  let first := runOn fileOf parseSource openError writeErr1 lower typeName
                     (inputFile :: rest) fs in
  let second := runOn fileOf parseSource openError writeErr2 lower typeName
                      (inputFile :: rest) (files (snd first)) in
  fileOf inputFile <> ToLower lower typeName +:+ ".schema.json" ->
  fst first = 0%Z ->
  writeErr2 (ToLower lower typeName +:+ ".schema.json") = None ->
  second = (0%Z, mkOS (trace (snd first)) (files (snd first))).
Proof.
  cbn zeta. unfold runOn. intros Hinput. rewrite !run_cases.
  destruct (String.eqb typeName ""); [done|].
  cbn [ParseFile envOn writeError].
  change (outputFileOf (envOn fileOf parseSource openError writeErr1 lower _) typeName)
    with (ToLower lower typeName +:+ ".schema.json").
  change (outputFileOf (envOn fileOf parseSource openError writeErr2 lower _) typeName)
    with (ToLower lower typeName +:+ ".schema.json").
  set (name := ToLower lower typeName +:+ ".schema.json") in *.
  destruct (fs !! fileOf inputFile) as [source|] eqn:Hsource; [|done].
  destruct (parseSource source) as [err|node] eqn:Hparse; [done|].
  destruct (last (structDecls typeName node)) as [fields|] eqn:Hlast; [|done].
  cbn zeta. destruct (writeErr1 name) eqn:Hw; [done|].
  cbn [fst snd trace files]. intros _ Hw2.
  rewrite lookup_insert_ne by done. rewrite Hsource, Hparse, Hlast. cbn zeta.
  by rewrite Hw2, insert_insert_eq.
Qed.

(** X4 on a file [user.go] with one declaration of [User], run twice; and
    the same source kept in [user.schema.json] and given as
    [./user.schema.json], where the first run puts the document in the
    place of its input and the second run reports that the file does not
    parse. *)
Lemma X4_run_again_on_files_witness :
  (let again := runOn flatDirectory parseOneUser noSuchFile (fun _ => None) (fun s => s)
                      "User" ["user.go"] in
   again (files (snd (again {["user.go" := oneUserSource]}))) =
     (0%Z, mkOS (trace (snd (again {["user.go" := oneUserSource]})))
                (files (snd (again {["user.go" := oneUserSource]}))))) /\
  (let again := runOn flatDirectory parseOneUser noSuchFile (fun _ => None) (fun s => s)
                      "User" ["./user.schema.json"] in
   fst (again {["user.schema.json" := oneUserSource]}) = 0%Z /\
   again (files (snd (again {["user.schema.json" := oneUserSource]}))) =
     (1%Z, mkOS [Stdout ("Error parsing file: 1:1: expected 'package'" +:+ LF)]
                (files (snd (again {["user.schema.json" := oneUserSource]}))))).
Proof.
  split.
  - apply (X4_run_again_on_files flatDirectory parseOneUser noSuchFile (fun _ => None)
             (fun _ => None) (fun s => s) "User" "user.go" []
             {["user.go" := oneUserSource]}); by vm_compute.
  - by vm_compute.
Defined.
